(** * gochain: proof-of-work and proof-of-stake consensus

    A shallow embedding of the consensus code of the gochain demonstration
    blockchain (proof-of-work mining and validation, proof-of-stake
    validator selection and validation, the block constructor) together
    with the properties its specification states.

    Go values are modelled as follows:
    - [[]byte] is [list byte];
    - [int], [int64] and [uint64] are [Z], with the wrap-around of the
      64-bit types written out ([wrap64], [to_int64]);
    - [*big.Int] is [Z];
    - a run-time panic is an explicit outcome ([Panicked]);
    - the wall clock and the pseudo-random generator are inputs. *)

From Stdlib Require Import Init.Byte Strings.String.
From Stdlib Require Import ZArith List Lia Bool.
Import ListNotations.
Open Scope Z_scope.

(** ** Bytes and big-endian integers *)

Definition byte_to_Z (b : byte) : Z := Z.of_N (Byte.to_N b).

Definition byte_of_Z (z : Z) : byte :=
  match Byte.of_N (Z.to_N (z mod 256)) with
  | Some b => b
  | None => x00
  end.

(** [be_to_Z bs] reads [bs] as an unsigned big-endian integer; this is
    what [big.Int.SetBytes] stores and what [binary.BigEndian.Uint64]
    returns on 8 bytes. *)
Definition be_to_Z (bs : list byte) : Z :=
  fold_left (fun acc b => acc * 256 + byte_to_Z b) bs 0.

(** [Z_to_be n z] is the [n]-byte big-endian representation of
    [z mod 256^n]. *)
Fixpoint Z_to_be (n : nat) (z : Z) : list byte :=
  match n with
  | O => []
  | S k => Z_to_be k (z / 256) ++ [byte_of_Z z]
  end.

(** ** SHA-256

    [crypto/sha256.Sum256] of the Go standard library, after FIPS 180-4:
    32-bit words are [Z] values below [2^32]. *)
Module SHA256.

Definition mask32 : Z := 0xffffffff.

Definition add32 (x y : Z) : Z := Z.land (x + y) mask32.

Definition rotr (n x : Z) : Z :=
  Z.lor (Z.shiftr x n) (Z.land (Z.shiftl x (32 - n)) mask32).

Definition not32 (x : Z) : Z := Z.lxor x mask32.

Definition Ch (x y z : Z) : Z := Z.lxor (Z.land x y) (Z.land (not32 x) z).

Definition Maj (x y z : Z) : Z :=
  Z.lxor (Z.lxor (Z.land x y) (Z.land x z)) (Z.land y z).

Definition bsig0 (x : Z) : Z := Z.lxor (Z.lxor (rotr 2 x) (rotr 13 x)) (rotr 22 x).
Definition bsig1 (x : Z) : Z := Z.lxor (Z.lxor (rotr 6 x) (rotr 11 x)) (rotr 25 x).
Definition ssig0 (x : Z) : Z := Z.lxor (Z.lxor (rotr 7 x) (rotr 18 x)) (Z.shiftr x 3).
Definition ssig1 (x : Z) : Z := Z.lxor (Z.lxor (rotr 17 x) (rotr 19 x)) (Z.shiftr x 10).

(** The constants of the standard are defined from the first primes:
    the first 32 bits of the fractional parts of their cube roots (round
    constants) and of their square roots (initial state). *)
Definition is_prime (p : Z) : bool :=
  forallb (fun d => negb (p mod d =? 0))
          (map Z.of_nat (seq 2 (Z.to_nat p - 2))).

Definition first_primes (n : nat) : list Z :=
  firstn n (filter is_prime (map Z.of_nat (seq 2 310))).

(** [cube_root_bits k x n]: the largest [y] in [[x, x + 2^k)] with
    [y^3 <= n], built from the high bit down. *)
Fixpoint cube_root_bits (k : nat) (x n : Z) : Z :=
  match k with
  | O => x
  | S k' =>
      let y := x + 2 ^ Z.of_nat k' in
      if y * y * y <=? n then cube_root_bits k' y n else cube_root_bits k' x n
  end.

Definition frac_cube_root (p : Z) : Z :=
  Z.land (cube_root_bits 36 0 (p * 2 ^ 96)) mask32.

Definition frac_square_root (p : Z) : Z :=
  Z.land (Z.sqrt (p * 2 ^ 64)) mask32.

Definition K : list Z :=
  Eval vm_compute in map frac_cube_root (first_primes 64).

Definition init : list Z :=
  Eval vm_compute in map frac_square_root (first_primes 8).

(** Padding: a [0x80] byte, zeros up to 56 modulo 64, then the length of
    the message in bits on 8 bytes. *)
Definition pad (msg : list byte) : list byte :=
  let len := Z.of_nat (length msg) in
  let zeros := Z.to_nat ((55 - len) mod 64) in
  msg ++ [x80] ++ repeat x00 zeros ++ Z_to_be 8 (8 * len).

(** The sixteen big-endian words of one 64-byte block. *)
Fixpoint words (n : nat) (bs : list byte) : list Z :=
  match n with
  | O => []
  | S k => be_to_Z (firstn 4 bs) :: words k (skipn 4 bs)
  end.

(** Message schedule: [n] more words are appended to [w]. *)
Fixpoint schedule (n : nat) (w : list Z) : list Z :=
  match n with
  | O => w
  | S k =>
      let i := length w in
      let v1 := nth (i - 2) w 0 in
      let v2 := nth (i - 15) w 0 in
      let x := add32 (add32 (add32 (ssig1 v1) (nth (i - 7) w 0)) (ssig0 v2))
                     (nth (i - 16) w 0) in
      schedule k (w ++ [x])
  end.

Record regs := Regs { ra : Z; rb : Z; rc : Z; rd : Z; re : Z; rf : Z; rg : Z; rh : Z }.

Definition round (s : regs) (kw : Z * Z) : regs :=
  let '(k, w) := kw in
  let t1 := add32 (add32 (add32 (add32 (rh s) (bsig1 (re s)))
                                (Ch (re s) (rf s) (rg s))) k) w in
  let t2 := add32 (bsig0 (ra s)) (Maj (ra s) (rb s) (rc s)) in
  Regs (add32 t1 t2) (ra s) (rb s) (rc s) (add32 (rd s) t1) (re s) (rf s) (rg s).

Definition regs_of (h : list Z) : regs :=
  Regs (nth 0 h 0) (nth 1 h 0) (nth 2 h 0) (nth 3 h 0)
       (nth 4 h 0) (nth 5 h 0) (nth 6 h 0) (nth 7 h 0).

Definition list_of (s : regs) : list Z :=
  [ra s; rb s; rc s; rd s; re s; rf s; rg s; rh s].

Definition block (h : list Z) (bs : list byte) : list Z :=
  let w := schedule 48 (words 16 bs) in
  let s := fold_left round (combine K w) (regs_of h) in
  map (fun p => add32 (fst p) (snd p)) (combine h (list_of s)).

Fixpoint blocks (n : nat) (h : list Z) (bs : list byte) : list Z :=
  match n with
  | O => h
  | S k => blocks k (block h (firstn 64 bs)) (skipn 64 bs)
  end.

Definition Sum256 (msg : list byte) : list byte :=
  let p := pad msg in
  flat_map (Z_to_be 4) (blocks (length p / 64) init p).

End SHA256.

Definition sha256 : list byte -> list byte := SHA256.Sum256.

(** Hexadecimal rendering of a byte string, to state digests readably. *)
Definition hex_digit (z : Z) : string :=
  String.substring (Z.to_nat z) 1 "0123456789abcdef".

Definition hex (bs : list byte) : string :=
  fold_right (fun b s => hex_digit (byte_to_Z b / 16) ++ hex_digit (byte_to_Z b mod 16) ++ s)%string
             EmptyString bs.

Definition bytes (s : string) : list byte := list_byte_of_string s.


(** ** Go run-time behaviour *)

(** The ways a call can panic: the two run-time errors this code can
    raise, and an explicit [panic(v)]. *)
Inductive panic : Type :=
| IndexOutOfRange
| DivideByZero
| Explicit (msg : string).

Inductive outcome (A : Type) : Type :=
| Returned (a : A)
| Panicked (p : panic).

Arguments Returned {A} a.
Arguments Panicked {A} p.

Definition bind {A B : Type} (m : outcome A) (k : A -> outcome B) : outcome B :=
  match m with
  | Returned a => k a
  | Panicked p => Panicked p
  end.

Notation "x <- m ;; k" := (bind m (fun x => k))
  (at level 61, m at next level, right associativity).

(** [math.MaxInt64]. *)
Definition MaxInt64 : Z := 9223372036854775807.

(** Arithmetic on [uint64] wraps modulo [2^64]. *)
Definition wrap64 (z : Z) : Z := z mod 2 ^ 64.

(** Conversion of a 64-bit pattern to [int64] (and to [int], which the
    comparison with [math.MaxInt64] forces to be 64 bits wide). *)
Definition to_int64 (z : Z) : Z := (z + 2 ^ 63) mod 2 ^ 64 - 2 ^ 63.

(** [big.Int.Cmp]. *)
Definition Cmp (x y : Z) : Z :=
  match x ?= y with
  | Lt => -1
  | Eq => 0
  | Gt => 1
  end.

(** [bytes.Join]. *)
Fixpoint bytes_Join (s : list (list byte)) (sep : list byte) : list byte :=
  match s with
  | [] => []
  | [x] => x
  | x :: rest => x ++ sep ++ bytes_Join rest sep
  end.

(** [binary.BigEndian.Uint64]: reads the first 8 bytes, and panics on a
    shorter slice. *)
Definition BigEndian_Uint64 (b : list byte) : outcome Z :=
  if (length b <? 8)%nat then Panicked IndexOutOfRange
  else Returned (be_to_Z (firstn 8 b)).

(** [IntToHex]: [binary.Write] of an [int64] in big-endian order gives the
    8 bytes of its two's complement pattern; writing a fixed-size value
    to a [bytes.Buffer] returns no error, so the [panic(err)] branch is
    not taken. *)
Definition IntToHex (num : Z) : list byte := Z_to_be 8 (wrap64 num).

(** ** Blocks (blockchain.go) *)

Record Block : Type := {
  Timestamp : Z;
  Data : list byte;
  PrevBlockHash : list byte;
  Hash : list byte;
  ValidatorID : list byte
}.

Inductive ConsensusType : Type := POW | POS.

(** The two assignments that end [NewBlock]. *)
Definition set_result (b : Block) (validatorID hash : list byte) : Block :=
  {| Timestamp := Timestamp b;
     Data := Data b;
     PrevBlockHash := PrevBlockHash b;
     Hash := hash;
     ValidatorID := validatorID |}.

(** ** Proof of work *)

Definition targetBits : Z := 16.

Module ProofOfWork.

Record t : Type := {
  block : Block;
  target : Z
}.

Definition prepareData (pow : t) (nonce : Z) : list byte :=
  bytes_Join
    [ PrevBlockHash (block pow);
      Data (block pow);
      IntToHex (Timestamp (block pow));
      IntToHex targetBits;
      IntToHex nonce ]
    [].

(** The test that ends the mining loop and that [Validate] returns. *)
Definition below_target (pow : t) (nonce : Z) : bool :=
  Cmp (be_to_Z (sha256 (prepareData pow nonce))) (target pow) =? -1.

(** The loop of [Run], from the state ([nonce], [hash]).  [fuel] bounds
    the number of iterations of the model; [None] means the bound was
    reached before the loop ended. *)
Fixpoint mine (fuel : nat) (pow : t) (nonce : Z) (hash : list byte)
  : option (Z * list byte) :=
  if nonce <? MaxInt64 then
    match fuel with
    | O => None
    | S fuel' =>
        let data := prepareData pow nonce in
        let hash := sha256 data in
        let hashInt := be_to_Z hash in
        if Cmp hashInt (target pow) =? -1 then Some (nonce, hash)
        else mine fuel' pow (nonce + 1) hash
    end
  else Some (nonce, hash).

(** [Run] with an explicit iteration bound. *)
Definition Run_within (fuel : nat) (pow : t) : option (list byte * list byte) :=
  match mine fuel pow 0 (repeat x00 32) with
  | Some (nonce, hash) => Some (IntToHex nonce, hash)
  | None => None
  end.

(** [Run]: the loop makes at most [MaxInt64] iterations. *)
Definition Run (pow : t) : option (list byte * list byte) :=
  Run_within (Z.to_nat MaxInt64) pow.

Definition Validate (pow : t) : outcome bool :=
  u <- BigEndian_Uint64 (ValidatorID (block pow)) ;;
  let nonce := to_int64 u in
  let data := prepareData pow nonce in
  let hash := sha256 data in
  let hashInt := be_to_Z hash in
  let isValid := Cmp hashInt (target pow) =? -1 in
  Returned isValid.

End ProofOfWork.

Definition NewProofOfWork (b : Block) : ProofOfWork.t :=
  {| ProofOfWork.block := b;
     ProofOfWork.target := Z.shiftl 1 (256 - targetBits) |}.

(** ** Proof of stake *)

Record Validator : Type := {
  Address : list byte;
  Stake : Z;
  Balance : Z
}.

Definition createMockValidators : list Validator :=
  [ {| Address := bytes "validator1"; Stake := 1000; Balance := 5000 |};
    {| Address := bytes "validator2"; Stake := 2000; Balance := 8000 |};
    {| Address := bytes "validator3"; Stake := 3000; Balance := 10000 |} ].

Module ProofOfStake.

Record t : Type := {
  block : Block;
  validators : list Validator;
  threshold : Z
}.

(** The first loop of [selectValidator]: the sum of the stakes, in
    [uint64] arithmetic. *)
Definition totalStake (vs : list Validator) : Z :=
  fold_left (fun total v => wrap64 (total + Stake v)) vs 0.

(** The second loop of [selectValidator]; [None] when the loop ends
    without returning. *)
Fixpoint walk (vs : list Validator) (selection accumulator : Z)
  : option Validator :=
  match vs with
  | [] => None
  | v :: rest =>
      let accumulator := wrap64 (accumulator + Stake v) in
      if selection <=? accumulator then Some v
      else walk rest selection accumulator
  end.

(** [selectValidator]; [rnd] is the value of [rand.Uint64()]. *)
Definition selectValidator (pos : t) (rnd : Z) : outcome Validator :=
  let total := totalStake (validators pos) in
  if total =? 0 then Panicked DivideByZero
  else
    let selection := rnd mod total in
    match walk (validators pos) selection 0 with
    | Some v => Returned v
    | None =>
        match validators pos with
        | v :: _ => Returned v
        | [] => Panicked IndexOutOfRange
        end
    end.

Definition prepareData (pos : t) (validator : Validator) : list byte :=
  bytes_Join
    [ PrevBlockHash (block pos);
      Data (block pos);
      IntToHex (Timestamp (block pos));
      Address validator;
      IntToHex (to_int64 (Stake validator)) ]
    [].

Definition Run (pos : t) (rnd : Z) : outcome (list byte * list byte) :=
  validator <- selectValidator pos rnd ;;
  let data := prepareData pos validator in
  let hash := sha256 data in
  Returned (Address validator, hash).

(** The loop of [Validate] over the registry. *)
Fixpoint validate_from (pos : t) (vs : list Validator) : bool :=
  match vs with
  | [] => false
  | v :: rest =>
      let data := prepareData pos v in
      let hash := sha256 data in
      let hashInt := be_to_Z hash in
      if Cmp hashInt (threshold pos) =? -1 then true
      else validate_from pos rest
  end.

Definition Validate (pos : t) : bool := validate_from pos (validators pos).

End ProofOfStake.

Definition NewProofOfStake (b : Block) : ProofOfStake.t :=
  {| ProofOfStake.block := b;
     ProofOfStake.validators := createMockValidators;
     ProofOfStake.threshold := Z.shiftl 1 255 |}.

(** ** The consensus interface (the file that declares [Consensus]) *)

Inductive Consensus : Type :=
| UsePoW (pow : ProofOfWork.t)
| UsePoS (pos : ProofOfStake.t).

Definition NewConsensus (consensusType : ConsensusType) (b : Block) : Consensus :=
  match consensusType with
  | POS => UsePoS (NewProofOfStake b)
  | POW => UsePoW (NewProofOfWork b)
  end.

(** [Run] through the interface; [None] only if the mining loop of the
    model ran out of iterations. *)
Definition Consensus_Run (c : Consensus) (rnd : Z)
  : option (outcome (list byte * list byte)) :=
  match c with
  | UsePoW pow => option_map Returned (ProofOfWork.Run pow)
  | UsePoS pos => Some (ProofOfStake.Run pos rnd)
  end.

Definition Consensus_Validate (c : Consensus) : outcome bool :=
  match c with
  | UsePoW pow => ProofOfWork.Validate pow
  | UsePoS pos => Returned (ProofOfStake.Validate pos)
  end.

(** [NewBlock]; [now] is [time.Now().Unix()] and [rnd] the random draw
    that a proof-of-stake run makes. *)
Definition NewBlock (data : list byte) (prevBlockHash : list byte)
    (consensusType : ConsensusType) (now rnd : Z) : option (outcome Block) :=
  let block := {| Timestamp := now;
                  Data := data;
                  PrevBlockHash := prevBlockHash;
                  Hash := [];
                  ValidatorID := [] |} in
  let consensus := NewConsensus consensusType block in
  match Consensus_Run consensus rnd with
  | None => None
  | Some r => Some (p <- r ;; Returned (set_result block (fst p) (snd p)))
  end.

Definition NewGenesisBlock (consensusType : ConsensusType) (now rnd : Z)
  : option (outcome Block) :=
  NewBlock (bytes "Genesis Block") [] consensusType now rnd.

(** ** The chain (blockchain.go) *)

Record Blockchain : Type := {
  blocks : list Block;
  consensusType : ConsensusType
}.

(** Indexing a slice, [l[i]]: a run-time panic outside [0 <= i < len(l)]. *)
Definition index {A : Type} (l : list A) (i : Z) : outcome A :=
  if (i <? 0) || (Z.of_nat (length l) <=? i) then Panicked IndexOutOfRange
  else
    match nth_error l (Z.to_nat i) with
    | Some a => Returned a
    | None => Panicked IndexOutOfRange
    end.

Definition NewBlockchain (consensusType : ConsensusType) (now rnd : Z)
  : option (outcome Blockchain) :=
  match NewGenesisBlock consensusType now rnd with
  | None => None
  | Some r =>
      Some (genesisBlock <- r ;;
            Returned {| blocks := [genesisBlock];
                        consensusType := consensusType |})
  end.

(** [AddBlock]; the receiver is returned with the new block appended. *)
Definition AddBlock (bc : Blockchain) (data : list byte) (now rnd : Z)
  : option (outcome Blockchain) :=
  match index (blocks bc) (Z.of_nat (length (blocks bc)) - 1) with
  | Panicked p => Some (Panicked p)
  | Returned prevBlock =>
      match NewBlock data (Hash prevBlock) (consensusType bc) now rnd with
      | None => None
      | Some r =>
          Some (newBlock <- r ;;
                Returned {| blocks := blocks bc ++ [newBlock];
                            consensusType := consensusType bc |})
      end
  end.

Definition SwitchConsensus (bc : Blockchain) (newType : ConsensusType)
  : Blockchain :=
  {| blocks := blocks bc; consensusType := newType |}.

(** The loop that ends [main]: every block is validated with the
    consensus type the chain has at that time; the values printed for a
    block are returned as the block and its validity. *)
Fixpoint validate_blocks (consensusType : ConsensusType) (bs : list Block)
  : outcome (list (Block * bool)) :=
  match bs with
  | [] => Returned []
  | block :: rest =>
      valid <- Consensus_Validate (NewConsensus consensusType block) ;;
      others <- validate_blocks consensusType rest ;;
      Returned ((block, valid) :: others)
  end.

(** [main]: a proof-of-work chain of a genesis block and one block, then
    a switch to proof of stake and one more block, then the validation
    loop.  [now0], [now1], [now2] are the times of the three block
    creations and [rnd] is the draw of the proof-of-stake run. *)
Definition main (now0 now1 now2 rnd : Z)
  : option (outcome (list (Block * bool))) :=
  match NewBlockchain POW now0 rnd with
  | None => None
  | Some (Panicked p) => Some (Panicked p)
  | Some (Returned bc) =>
      match AddBlock bc (bytes "Send 50 BTC to John") now1 rnd with
      | None => None
      | Some (Panicked p) => Some (Panicked p)
      | Some (Returned bc) =>
          let bc := SwitchConsensus bc POS in
          match AddBlock bc (bytes "Send 30 BTC to Jane") now2 rnd with
          | None => None
          | Some (Panicked p) => Some (Panicked p)
          | Some (Returned bc) =>
              Some (validate_blocks (consensusType bc) (blocks bc))
          end
      end
  end.

(** Each block after the first names the hash of the block before it. *)
Fixpoint chain_linked (bs : list Block) : Prop :=
  match bs with
  | [] => True
  | b :: rest =>
      match rest with
      | [] => True
      | b' :: _ => PrevBlockHash b' = Hash b /\ chain_linked rest
      end
  end.

(** The chains that [NewBlockchain], [AddBlock] and [SwitchConsensus]
    build. *)
Inductive built : Blockchain -> Prop :=
| built_new (consensusType : ConsensusType) (now rnd : Z) (bc : Blockchain) :
    NewBlockchain consensusType now rnd = Some (Returned bc) -> built bc
| built_add (bc bc' : Blockchain) (data : list byte) (now rnd : Z) :
    built bc -> AddBlock bc data now rnd = Some (Returned bc') -> built bc'
| built_switch (bc : Blockchain) (newType : ConsensusType) :
    built bc -> built (SwitchConsensus bc newType).

(** ** Notions used to state the properties *)

(** The stake accumulated over the first [k] validators of a registry, as
    the loops of [selectValidator] compute it. *)
Definition cumulative (vs : list Validator) (k : nat) : Z :=
  ProofOfStake.totalStake (firstn k vs).

(** The sum of the stakes as an unbounded integer. *)
Definition exact_stake (vs : list Validator) : Z :=
  fold_right (fun v total => Stake v + total) 0 vs.

(** The block [NewBlock] starts from, before the consensus runs. *)
Definition fresh_block (data prevBlockHash : list byte) (now : Z) : Block :=
  {| Timestamp := now;
     Data := data;
     PrevBlockHash := prevBlockHash;
     Hash := [];
     ValidatorID := [] |}.

(** The nonce that [ProofOfWork.Validate] decodes from a block. *)
Definition recorded_nonce (b : Block) : Z :=
  to_int64 (be_to_Z (firstn 8 (ValidatorID b))).

(** The genesis block before the consensus runs, created at time [now]. *)
Definition genesis (now : Z) : Block :=
  fresh_block (bytes "Genesis Block") [] now.

(** A chain of three blocks: the genesis block mined at time
    1700030065 (nonce 0); after a switch to proof of stake, a block
    forged at time 1700030100 with the draw 5000 (validator3); after a
    switch back to proof of work, a block mined at time 1700043653
    (nonce 1). *)
Definition example_block0 : Block :=
  set_result (genesis 1700030065) (IntToHex 0)
    (sha256 (ProofOfWork.prepareData (NewProofOfWork (genesis 1700030065)) 0)).

Definition example_block1 : Block :=
  set_result
    (fresh_block (bytes "Send 30 BTC to Jane") (Hash example_block0) 1700030100)
    (bytes "validator3")
    (sha256 (ProofOfStake.prepareData
               (NewProofOfStake
                  (fresh_block (bytes "Send 30 BTC to Jane")
                               (Hash example_block0) 1700030100))
               {| Address := bytes "validator3";
                  Stake := 3000; Balance := 10000 |})).

Definition example_block2 : Block :=
  set_result
    (fresh_block (bytes "Send 50 BTC to John") (Hash example_block1) 1700043653)
    (IntToHex 1)
    (sha256 (ProofOfWork.prepareData
               (NewProofOfWork
                  (fresh_block (bytes "Send 50 BTC to John")
                               (Hash example_block1) 1700043653))
               1)).

Definition example_chain : Blockchain :=
  {| blocks := [example_block0; example_block1; example_block2];
     consensusType := POW |}.

(** Two registries whose stakes sum to [2^64] or more. *)
Definition overflow_selection : ProofOfStake.t :=
  {| ProofOfStake.block := genesis 1700000000;
     ProofOfStake.validators :=
       [ {| Address := bytes "first"; Stake := 3; Balance := 3 |};
         {| Address := bytes "second"; Stake := 2 ^ 64 - 1; Balance := 2 ^ 64 - 1 |};
         {| Address := bytes "third"; Stake := 10; Balance := 10 |} ];
     ProofOfStake.threshold := 2 ^ 255 |}.

Definition overflow_total : ProofOfStake.t :=
  {| ProofOfStake.block := genesis 1700000000;
     ProofOfStake.validators :=
       [ {| Address := bytes "first"; Stake := 2 ^ 63; Balance := 2 ^ 63 |};
         {| Address := bytes "second"; Stake := 2 ^ 63; Balance := 2 ^ 63 |} ];
     ProofOfStake.threshold := 2 ^ 255 |}.

(** * Properties *)

(** ** SHA-256 test vectors *)

Example round_constants :
  length SHA256.K = 64%nat /\
  nth 0 SHA256.K 0 = 0x428a2f98 /\
  nth 63 SHA256.K 0 = 0xc67178f2 /\
  length SHA256.init = 8%nat /\
  nth 0 SHA256.init 0 = 0x6a09e667 /\
  nth 7 SHA256.init 0 = 0x5be0cd19.
Proof. vm_compute. repeat split. Qed.

Example sha256_empty :
  hex (sha256 []) =
  "e3b0c44298fc1c149afbf4c8996fb92427ae41e4649b934ca495991b7852b855"%string.
Proof. vm_compute. reflexivity. Qed.

Example sha256_abc :
  hex (sha256 (bytes "abc")) =
  "ba7816bf8f01cfea414140de5dae2223b00361a396177a9cb410ff61f20015ad"%string.
Proof. vm_compute. reflexivity. Qed.

Example sha256_two_blocks :
  hex (sha256 (bytes "abcdbcdecdefdefgefghfghighijhijkijkljklmklmnlmnomnopnopq")) =
  "248d6a61d20638b8e5c026930c3e6039a33ce45964ff2167f6ecedd419db06c1"%string.
Proof. vm_compute. reflexivity. Qed.

(** ** Bytes and big-endian encoding *)

Section Encoding.

Lemma byte_to_Z_range (b : byte) : 0 <= byte_to_Z b < 256.
Proof.
  unfold byte_to_Z.
  pose proof (Byte.to_N_bounded b) as Hb.
  lia.
Qed.

Lemma byte_to_Z_of_Z (z : Z) : byte_to_Z (byte_of_Z z) = z mod 256.
Proof.
  unfold byte_to_Z, byte_of_Z.
  pose proof (Z.mod_pos_bound z 256 ltac:(lia)) as Hz.
  destruct (Byte.of_N (Z.to_N (z mod 256))) as [b|] eqn:E.
  - apply Byte.to_of_N in E. rewrite E. lia.
  - apply Byte.of_N_None_iff in E. lia.
Qed.

Lemma be_to_Z_snoc (bs : list byte) (b : byte) :
  be_to_Z (bs ++ [b]) = be_to_Z bs * 256 + byte_to_Z b.
Proof.
  unfold be_to_Z. rewrite fold_left_app. reflexivity.
Qed.

Lemma length_Z_to_be (n : nat) : forall z, length (Z_to_be n z) = n.
Proof.
  induction n as [|n IH]; intro z; simpl.
  - reflexivity.
  - rewrite length_app, IH. simpl. lia.
Qed.

Lemma be_to_Z_Z_to_be (n : nat) :
  forall z, be_to_Z (Z_to_be n z) = z mod 256 ^ Z.of_nat n.
Proof.
  induction n as [|n IH]; intro z.
  - simpl. rewrite Z.mod_1_r. reflexivity.
  - cbn [Z_to_be]. rewrite be_to_Z_snoc, IH, byte_to_Z_of_Z.
    rewrite Nat2Z.inj_succ, Z.pow_succ_r by lia.
    assert (Hp : 0 < 256 ^ Z.of_nat n) by (apply Z.pow_pos_nonneg; lia).
    rewrite Z.rem_mul_r by lia.
    lia.
Qed.

Lemma Z_to_be_mod (n : nat) :
  forall z, Z_to_be n (z mod 256 ^ Z.of_nat n) = Z_to_be n z.
Proof.
  induction n as [|n IH]; intro z.
  - reflexivity.
  - cbn [Z_to_be].
    rewrite Nat2Z.inj_succ, Z.pow_succ_r by lia.
    assert (Hp : 0 < 256 ^ Z.of_nat n) by (apply Z.pow_pos_nonneg; lia).
    f_equal.
    + rewrite <- (IH (z / 256)). f_equal.
      rewrite Z.rem_mul_r by lia.
      rewrite (Z.mul_comm 256 (_ mod _)), Z.div_add by lia.
      rewrite Z.div_small by (apply Z.mod_pos_bound; lia).
      reflexivity.
    + f_equal. unfold byte_of_Z.
      rewrite Z.rem_mul_r by lia.
      rewrite (Z.mul_comm 256 (_ mod _)), Z.mod_add by lia.
      rewrite Z.mod_mod by lia. reflexivity.
Qed.

Lemma length_IntToHex (num : Z) : length (IntToHex num) = 8%nat.
Proof. apply length_Z_to_be. Qed.

Lemma be_to_Z_IntToHex (num : Z) : be_to_Z (IntToHex num) = wrap64 num.
Proof.
  unfold IntToHex. rewrite be_to_Z_Z_to_be.
  unfold wrap64. change (256 ^ Z.of_nat 8) with (2 ^ 64).
  apply Z.mod_mod. lia.
Qed.

Lemma IntToHex_big_endian (num : Z) : IntToHex num = Z_to_be 8 num.
Proof.
  unfold IntToHex, wrap64. change (2 ^ 64) with (256 ^ Z.of_nat 8).
  apply Z_to_be_mod.
Qed.

Lemma wrap64_small (z : Z) : 0 <= z < 2 ^ 64 -> wrap64 z = z.
Proof. intro H. unfold wrap64. apply Z.mod_small. exact H. Qed.

Lemma to_int64_wrap64 (z : Z) :
  - 2 ^ 63 <= z < 2 ^ 63 -> to_int64 (wrap64 z) = z.
Proof.
  intro H. unfold to_int64, wrap64.
  rewrite Zplus_mod_idemp_l.
  rewrite Z.mod_small by lia. lia.
Qed.

Lemma wrap64_to_int64 (z : Z) : wrap64 (to_int64 z) = wrap64 z.
Proof.
  unfold to_int64, wrap64.
  rewrite Zminus_mod_idemp_l.
  replace (z + 2 ^ 63 - 2 ^ 63) with z by lia.
  reflexivity.
Qed.

Lemma IntToHex_to_int64 (z : Z) : IntToHex (to_int64 z) = IntToHex z.
Proof. unfold IntToHex. rewrite wrap64_to_int64. reflexivity. Qed.

Lemma Uint64_IntToHex (num : Z) :
  BigEndian_Uint64 (IntToHex num) = Returned (wrap64 num).
Proof.
  unfold BigEndian_Uint64.
  rewrite length_IntToHex. simpl (8 <? 8)%nat.
  rewrite firstn_all2 by (rewrite length_IntToHex; lia).
  rewrite be_to_Z_IntToHex. reflexivity.
Qed.

Lemma Uint64_short (b : list byte) :
  (length b < 8)%nat -> BigEndian_Uint64 b = Panicked IndexOutOfRange.
Proof.
  intro H. unfold BigEndian_Uint64.
  apply Nat.ltb_lt in H. rewrite H. reflexivity.
Qed.

Lemma Uint64_long (b : list byte) :
  (8 <= length b)%nat -> BigEndian_Uint64 b = Returned (be_to_Z (firstn 8 b)).
Proof.
  intro H. unfold BigEndian_Uint64.
  apply Nat.ltb_ge in H. rewrite H. reflexivity.
Qed.

Lemma Cmp_lt (x y : Z) : (Cmp x y =? -1) = (x <? y).
Proof.
  unfold Cmp, Z.ltb. destruct (x ?= y); reflexivity.
Qed.

Lemma bytes_Join_nosep (s : list (list byte)) : bytes_Join s [] = concat s.
Proof.
  induction s as [|x [|y rest] IH].
  - reflexivity.
  - simpl. rewrite app_nil_r. reflexivity.
  - change (bytes_Join (x :: y :: rest) []) with (x ++ [] ++ bytes_Join (y :: rest) []).
    rewrite IH. reflexivity.
Qed.

End Encoding.

(** ** The mining loop *)

Section Mining.

Import ProofOfWork.

Variable pow : ProofOfWork.t.

Lemma below_target_lt (nonce : Z) :
  below_target pow nonce = true <->
  be_to_Z (sha256 (prepareData pow nonce)) < target pow.
Proof.
  unfold below_target. rewrite Cmp_lt. apply Z.ltb_lt.
Qed.

Lemma mine_done (fuel : nat) (nonce : Z) (hash : list byte) :
  MaxInt64 <= nonce -> mine fuel pow nonce hash = Some (nonce, hash).
Proof.
  intro H. apply Z.ltb_ge in H.
  destruct fuel; cbn [mine]; rewrite H; reflexivity.
Qed.

Lemma mine_hit (fuel : nat) (nonce : Z) (hash : list byte) :
  nonce < MaxInt64 ->
  below_target pow nonce = true ->
  mine (S fuel) pow nonce hash = Some (nonce, sha256 (prepareData pow nonce)).
Proof.
  intros H Hb. apply Z.ltb_lt in H.
  cbn [mine]. rewrite H.
  unfold below_target in Hb. rewrite Hb. reflexivity.
Qed.

Lemma mine_miss (fuel : nat) (nonce : Z) (hash : list byte) :
  nonce < MaxInt64 ->
  below_target pow nonce = false ->
  mine (S fuel) pow nonce hash =
  mine fuel pow (nonce + 1) (sha256 (prepareData pow nonce)).
Proof.
  intros H Hb. apply Z.ltb_lt in H.
  cbn [mine]. rewrite H.
  unfold below_target in Hb. rewrite Hb. reflexivity.
Qed.

(** The loop ends within [MaxInt64 - nonce] iterations. *)
Lemma mine_total (fuel : nat) :
  forall nonce hash,
    MaxInt64 - nonce <= Z.of_nat fuel ->
    exists r, mine fuel pow nonce hash = Some r.
Proof.
  induction fuel as [|fuel IH]; intros nonce hash Hf.
  - exists (nonce, hash). apply mine_done. lia.
  - destruct (Z_lt_le_dec nonce MaxInt64) as [Hlt|Hge].
    + destruct (below_target pow nonce) eqn:Hb.
      * eexists. apply mine_hit; assumption.
      * rewrite mine_miss by assumption. apply IH. lia.
    + exists (nonce, hash). apply mine_done. exact Hge.
Qed.

(** More iterations do not change a result. *)
Lemma mine_fuel_mono (fuel : nat) :
  forall fuel' nonce hash r,
    (fuel <= fuel')%nat ->
    mine fuel pow nonce hash = Some r ->
    mine fuel' pow nonce hash = Some r.
Proof.
  induction fuel as [|fuel IH]; intros fuel' nonce hash r Hle Hr.
  - destruct (Z_lt_le_dec nonce MaxInt64) as [Hlt|Hge].
    + apply Z.ltb_lt in Hlt. cbn [mine] in Hr. rewrite Hlt in Hr. discriminate.
    + rewrite mine_done in Hr by assumption. rewrite mine_done by assumption.
      exact Hr.
  - destruct fuel' as [|fuel']; [lia|].
    destruct (Z_lt_le_dec nonce MaxInt64) as [Hlt|Hge].
    + destruct (below_target pow nonce) eqn:Hb.
      * rewrite mine_hit in Hr by assumption. rewrite mine_hit by assumption.
        exact Hr.
      * rewrite mine_miss in Hr by assumption. rewrite mine_miss by assumption.
        apply IH with (fuel' := fuel'); [lia | exact Hr].
    + rewrite mine_done in Hr by assumption. rewrite mine_done by assumption.
      exact Hr.
Qed.

(** The loop stops at the first nonce, counted from its start, whose
    hash is below the target. *)
Lemma mine_first (k : nat) :
  forall fuel nonce hash,
    (forall m, nonce <= m < nonce + Z.of_nat k -> below_target pow m = false) ->
    below_target pow (nonce + Z.of_nat k) = true ->
    nonce + Z.of_nat k < MaxInt64 ->
    (k < fuel)%nat ->
    mine fuel pow nonce hash =
    Some (nonce + Z.of_nat k, sha256 (prepareData pow (nonce + Z.of_nat k))).
Proof.
  induction k as [|k IH]; intros fuel nonce hash Hmiss Hhit Hlt Hfuel.
  - destruct fuel as [|fuel]; [lia|].
    rewrite Nat2Z.inj_0, Z.add_0_r in *.
    apply mine_hit; assumption.
  - destruct fuel as [|fuel]; [lia|].
    rewrite mine_miss by (try apply Hmiss; lia).
    replace (nonce + Z.of_nat (S k)) with (nonce + 1 + Z.of_nat k) in * by lia.
    apply IH; try assumption; try lia.
    intros m Hm. apply Hmiss. lia.
Qed.

Lemma Run_within_mono (fuel fuel' : nat) (r : list byte * list byte) :
  (fuel <= fuel')%nat ->
  Run_within fuel pow = Some r -> Run_within fuel' pow = Some r.
Proof.
  unfold Run_within. intros Hle Hr.
  destruct (mine fuel pow 0 (repeat x00 32)) as [[nonce hash]|] eqn:E;
    [|discriminate].
  rewrite (mine_fuel_mono fuel fuel' _ _ _ Hle E). exact Hr.
Qed.

Lemma Run_unfold : Run pow = Run_within (Z.to_nat MaxInt64) pow.
Proof. reflexivity. Qed.

(** [Run] always returns: the iteration bound of the model is never what
    ends the loop. *)
Lemma Run_total : exists r, Run pow = Some r.
Proof.
  rewrite Run_unfold. unfold Run_within.
  destruct (mine_total (Z.to_nat MaxInt64) 0 (repeat x00 32)) as [[nonce hash] Hr].
  - rewrite Z2Nat.id by (unfold MaxInt64; lia). lia.
  - rewrite Hr. eexists. reflexivity.
Qed.

Lemma Run_within_agree (fuel fuel' : nat) (r r' : list byte * list byte) :
  Run_within fuel pow = Some r -> Run_within fuel' pow = Some r' -> r = r'.
Proof.
  intros Hr Hr'.
  destruct (Nat.le_ge_cases fuel fuel') as [Hle|Hge].
  - rewrite (Run_within_mono fuel fuel' r Hle Hr) in Hr'. congruence.
  - rewrite (Run_within_mono fuel' fuel r' Hge Hr') in Hr. congruence.
Qed.

(** A result obtained within some bound is the result of [Run]. *)
Lemma Run_of_Run_within (fuel : nat) (r : list byte * list byte) :
  Run_within fuel pow = Some r -> Run pow = Some r.
Proof.
  intro Hr. destruct Run_total as [r' Hr'].
  rewrite Hr'. f_equal. symmetry.
  rewrite Run_unfold in Hr'.
  exact (Run_within_agree fuel (Z.to_nat MaxInt64) r r' Hr Hr').
Qed.

Lemma Run_first (n : Z) :
  0 <= n < MaxInt64 ->
  below_target pow n = true ->
  (forall m, 0 <= m < n -> below_target pow m = false) ->
  Run pow = Some (IntToHex n, sha256 (prepareData pow n)).
Proof.
  intros Hn Hhit Hmiss.
  apply Run_of_Run_within with (fuel := S (Z.to_nat n)).
  unfold Run_within.
  rewrite (mine_first (Z.to_nat n) (S (Z.to_nat n)) 0 (repeat x00 32)).
  - rewrite Z.add_0_l, Z2Nat.id by lia. reflexivity.
  - intros m Hm. apply Hmiss. rewrite Z2Nat.id in Hm by lia. lia.
  - rewrite Z.add_0_l, Z2Nat.id by lia. exact Hhit.
  - rewrite Z2Nat.id by lia. lia.
  - lia.
Qed.

(** Among the nonces below a bound, if one has a hash below the target
    then there is a least one. *)
Lemma least_below_target (k : nat) :
  forall n,
    0 <= n < Z.of_nat k ->
    below_target pow n = true ->
    exists n0,
      0 <= n0 <= n /\ below_target pow n0 = true /\
      forall m, 0 <= m < n0 -> below_target pow m = false.
Proof.
  induction k as [|k IH]; intros n Hn Hb; [lia|].
  destruct (Z.eq_dec n (Z.of_nat k)) as [->|Hne].
  - assert (Hdec : (exists m, 0 <= m < Z.of_nat k /\ below_target pow m = true) \/
                   (forall m, 0 <= m < Z.of_nat k -> below_target pow m = false)).
    { clear. induction k as [|k IHk].
      - right. intros m Hm. lia.
      - destruct IHk as [[m [Hm Hbm]]|Hnone].
        + left. exists m. split; [lia|exact Hbm].
        + destruct (below_target pow (Z.of_nat k)) eqn:Hk.
          * left. exists (Z.of_nat k). split; [lia|exact Hk].
          * right. intros m Hm.
            destruct (Z.eq_dec m (Z.of_nat k)) as [->|Hmk]; [exact Hk|].
            apply Hnone. lia. }
    destruct Hdec as [[m [Hm Hbm]]|Hnone].
    + destruct (IH m Hm Hbm) as [n0 [Hn0 [Hb0 Hleast]]].
      exists n0. repeat split; try assumption; lia.
    + exists (Z.of_nat k). repeat split; try assumption; lia.
  - destruct (IH n ltac:(lia) Hb) as [n0 [Hn0 [Hb0 Hleast]]].
    exists n0. repeat split; try assumption; lia.
Qed.

End Mining.

(** ** The digest is 32 bytes long *)

Section DigestLength.

Import SHA256.

Lemma length_block (h : list Z) (bs : list byte) :
  length h = 8%nat -> length (block h bs) = 8%nat.
Proof.
  intro Hh. unfold block.
  rewrite length_map, length_combine, Hh. reflexivity.
Qed.

Lemma length_blocks (n : nat) :
  forall h bs, length h = 8%nat -> length (blocks n h bs) = 8%nat.
Proof.
  induction n as [|n IH]; intros h bs Hh; simpl.
  - exact Hh.
  - apply IH. apply length_block. exact Hh.
Qed.

Lemma length_flat_map_be (ws : list Z) :
  length (flat_map (Z_to_be 4) ws) = (4 * length ws)%nat.
Proof.
  induction ws as [|w ws IH].
  - reflexivity.
  - cbn [flat_map]. rewrite length_app, length_Z_to_be, IH. simpl. lia.
Qed.

Lemma length_sha256 (msg : list byte) : length (sha256 msg) = 32%nat.
Proof.
  unfold sha256, Sum256.
  rewrite length_flat_map_be, length_blocks by reflexivity.
  reflexivity.
Qed.

Lemma sha256_nonempty (msg : list byte) : sha256 msg <> [].
Proof.
  intro H. pose proof (length_sha256 msg) as L.
  rewrite H in L. discriminate L.
Qed.

End DigestLength.

(** ** Validator selection *)

Section Selection.

Import ProofOfStake.

Lemma walk_index (vs : list Validator) :
  forall acc s,
    vs <> [] ->
    s <= fold_left (fun total v => wrap64 (total + Stake v)) vs acc ->
    exists i v,
      nth_error vs i = Some v /\
      walk vs s acc = Some v /\
      s <= fold_left (fun total v => wrap64 (total + Stake v)) (firstn (S i) vs) acc /\
      forall k, (k < i)%nat -> fold_left (fun total v => wrap64 (total + Stake v)) (firstn (S k) vs) acc < s.
Proof.
  induction vs as [|v rest IH]; intros acc s Hne Hs; [contradiction|].
  cbn [walk].
  destruct (s <=? wrap64 (acc + Stake v)) eqn:E.
  - apply Z.leb_le in E.
    exists 0%nat, v.
    split; [reflexivity|]. split; [reflexivity|]. split; [exact E|].
    intros k Hk. lia.
  - apply Z.leb_gt in E.
    destruct rest as [|v' rest'].
    + cbn in Hs. lia.
    + destruct (IH (wrap64 (acc + Stake v)) s ltac:(discriminate) Hs)
        as [i [w [Hnth [Hwalk [Hreach Hbefore]]]]].
      exists (S i), w.
      split; [exact Hnth|]. split; [exact Hwalk|]. split; [exact Hreach|].
      intros [|k] Hk.
      * exact E.
      * apply Hbefore. lia.
Qed.

Lemma totalStake_exact (vs : list Validator) :
  Forall (fun v => 0 <= Stake v) vs ->
  exact_stake vs < 2 ^ 64 ->
  totalStake vs = exact_stake vs.
Proof.
  intros Hpos Hsum. unfold totalStake.
  enough (G : forall acc, 0 <= acc -> acc + exact_stake vs < 2 ^ 64 ->
                     fold_left (fun total v => wrap64 (total + Stake v)) vs acc
                     = acc + exact_stake vs).
  { rewrite G; lia. }
  clear Hsum. induction Hpos as [|v rest Hv Hrest IH]; intros acc Hacc Hsum.
  - cbn. lia.
  - cbn [fold_left exact_stake fold_right] in *.
    assert (0 <= exact_stake rest).
    { clear - Hrest. induction Hrest; cbn; [lia|].
      fold (exact_stake l). lia. }
    fold (exact_stake rest) in *.
    rewrite wrap64_small by lia.
    rewrite IH by lia. lia.
Qed.

Lemma exact_stake_firstn (vs : list Validator) (k : nat) :
  Forall (fun v => 0 <= Stake v) vs ->
  0 <= exact_stake (firstn k vs) <= exact_stake vs.
Proof.
  intro Hpos. revert k.
  induction Hpos as [|v rest Hv Hrest IH]; intro k.
  - rewrite firstn_nil. cbn. lia.
  - destruct k as [|k].
    + cbn [firstn exact_stake fold_right]. fold (exact_stake rest).
      specialize (IH 0%nat). rewrite firstn_O in IH. cbn in IH. lia.
    + rewrite firstn_cons. cbn [exact_stake fold_right].
      fold (exact_stake rest). fold (exact_stake (firstn k rest)).
      specialize (IH k). lia.
Qed.

(** Without overflow the accumulated stakes are the exact sums. *)
Lemma cumulative_exact (vs : list Validator) (k : nat) :
  Forall (fun v => 0 <= Stake v) vs ->
  exact_stake vs < 2 ^ 64 ->
  cumulative vs k = exact_stake (firstn k vs).
Proof.
  intros Hpos Hsum. unfold cumulative.
  pose proof (exact_stake_firstn vs k Hpos) as Hk.
  apply totalStake_exact; [|lia].
  rewrite <- (firstn_skipn k vs) in Hpos.
  apply Forall_app in Hpos. exact (proj1 Hpos).
Qed.

End Selection.

(** ** Serialization *)

Section Serialization.

Lemma pow_prepareData_concat (pow : ProofOfWork.t) (nonce : Z) :
  ProofOfWork.prepareData pow nonce =
  PrevBlockHash (ProofOfWork.block pow) ++
  Data (ProofOfWork.block pow) ++
  Z_to_be 8 (Timestamp (ProofOfWork.block pow)) ++
  Z_to_be 8 targetBits ++
  Z_to_be 8 nonce.
Proof.
  unfold ProofOfWork.prepareData.
  rewrite bytes_Join_nosep. cbn [concat]. rewrite app_nil_r.
  rewrite !IntToHex_big_endian. reflexivity.
Qed.

Lemma pos_prepareData_concat (pos : ProofOfStake.t) (v : Validator) :
  ProofOfStake.prepareData pos v =
  PrevBlockHash (ProofOfStake.block pos) ++
  Data (ProofOfStake.block pos) ++
  Z_to_be 8 (Timestamp (ProofOfStake.block pos)) ++
  Address v ++
  Z_to_be 8 (Stake v).
Proof.
  unfold ProofOfStake.prepareData.
  rewrite bytes_Join_nosep. cbn [concat]. rewrite app_nil_r.
  rewrite IntToHex_to_int64, !IntToHex_big_endian. reflexivity.
Qed.

(** C8: the bytes that both algorithms hash are the concatenation, in
    this order and with nothing in between, of the previous block hash,
    the payload, the timestamp on 8 big-endian bytes and the extras: for
    proof of work the difficulty [targetBits] and the nonce, each on 8
    big-endian bytes; for proof of stake the validator address and the
    stake on 8 big-endian bytes.  The last part states what "8 big-endian
    bytes" means: the encoding has length 8 and reads back, as a
    big-endian number, to the value modulo [2^64]. *)
Theorem prepareData_layout :
  (forall (pow : ProofOfWork.t) (nonce : Z),
      ProofOfWork.prepareData pow nonce =
      PrevBlockHash (ProofOfWork.block pow) ++
      Data (ProofOfWork.block pow) ++
      Z_to_be 8 (Timestamp (ProofOfWork.block pow)) ++
      Z_to_be 8 16 ++
      Z_to_be 8 nonce) /\
  (forall (pos : ProofOfStake.t) (v : Validator),
      ProofOfStake.prepareData pos v =
      PrevBlockHash (ProofOfStake.block pos) ++
      Data (ProofOfStake.block pos) ++
      Z_to_be 8 (Timestamp (ProofOfStake.block pos)) ++
      Address v ++
      Z_to_be 8 (Stake v)) /\
  (forall z : Z,
      length (Z_to_be 8 z) = 8%nat /\ be_to_Z (Z_to_be 8 z) = z mod 2 ^ 64).
Proof.
  split; [|split].
  - intros pow nonce. apply pow_prepareData_concat.
  - intros pos v. apply pos_prepareData_concat.
  - intro z. split.
    + apply length_Z_to_be.
    + apply (be_to_Z_Z_to_be 8).
Qed.

(** C9: the hash is a function of the previous block hash, the payload,
    the timestamp and the nonce (proof of work) or the validator's
    address and stake (proof of stake) alone: two computations that agree
    on these give the same digest, whatever the other fields of the
    blocks, the validators and the consensus contexts hold. *)
Theorem hash_deterministic
    (pow1 pow2 : ProofOfWork.t) (pos1 pos2 : ProofOfStake.t)
    (b1 b2 : Block) (nonce : Z) (v1 v2 : Validator) :
  ProofOfWork.block pow1 = b1 -> ProofOfWork.block pow2 = b2 ->
  ProofOfStake.block pos1 = b1 -> ProofOfStake.block pos2 = b2 ->
  PrevBlockHash b1 = PrevBlockHash b2 ->
  Data b1 = Data b2 ->
  Timestamp b1 = Timestamp b2 ->
  Address v1 = Address v2 ->
  Stake v1 = Stake v2 ->
  sha256 (ProofOfWork.prepareData pow1 nonce) =
  sha256 (ProofOfWork.prepareData pow2 nonce) /\
  sha256 (ProofOfStake.prepareData pos1 v1) =
  sha256 (ProofOfStake.prepareData pos2 v2).
Proof.
  intros Hw1 Hw2 Hs1 Hs2 Hprev Hdata Hts Haddr Hstake.
  rewrite !pow_prepareData_concat, !pos_prepareData_concat.
  rewrite Hw1, Hw2, Hs1, Hs2, Hprev, Hdata, Hts, Haddr, Hstake.
  split; reflexivity.
Qed.

Lemma hash_deterministic_witness :
  sha256 (ProofOfWork.prepareData (NewProofOfWork (genesis 1700000000)) 7) =
  sha256 (ProofOfWork.prepareData
            {| ProofOfWork.block :=
                 set_result (genesis 1700000000) (IntToHex 7) (bytes "other");
               ProofOfWork.target := 1 |} 7) /\
  sha256 (ProofOfStake.prepareData (NewProofOfStake (genesis 1700000000))
            {| Address := bytes "validator1"; Stake := 1000; Balance := 5000 |}) =
  sha256 (ProofOfStake.prepareData
            {| ProofOfStake.block :=
                 set_result (genesis 1700000000) (IntToHex 7) (bytes "other");
               ProofOfStake.validators := [];
               ProofOfStake.threshold := 1 |}
            {| Address := bytes "validator1"; Stake := 1000; Balance := 0 |}).
Proof.
  apply (hash_deterministic _ _ _ _
           (genesis 1700000000)
           (set_result (genesis 1700000000) (IntToHex 7) (bytes "other")));
    reflexivity.
Defined.

End Serialization.

(** ** Proof of work *)

Section ProofOfWorkProperties.


Lemma target_value (b : Block) :
  ProofOfWork.target (NewProofOfWork b) = 2 ^ (256 - 16).
Proof. reflexivity. Qed.

Lemma Validate_unfold (pow : ProofOfWork.t) :
  (8 <= length (ValidatorID (ProofOfWork.block pow)))%nat ->
  ProofOfWork.Validate pow =
  Returned (ProofOfWork.below_target pow (recorded_nonce (ProofOfWork.block pow))).
Proof.
  intro H. unfold ProofOfWork.Validate.
  rewrite Uint64_long by exact H. reflexivity.
Qed.

Lemma recorded_nonce_IntToHex (b : Block) (n : Z) (h : list byte) :
  - 2 ^ 63 <= n < 2 ^ 63 ->
  recorded_nonce (set_result b (IntToHex n) h) = n.
Proof.
  intro Hn. unfold recorded_nonce. cbn [set_result ValidatorID].
  rewrite firstn_all2 by (rewrite length_IntToHex; lia).
  rewrite be_to_Z_IntToHex. apply to_int64_wrap64. exact Hn.
Qed.

Lemma Validate_short (pow : ProofOfWork.t) :
  (length (ValidatorID (ProofOfWork.block pow)) < 8)%nat ->
  ProofOfWork.Validate pow = Panicked IndexOutOfRange.
Proof.
  intro H. unfold ProofOfWork.Validate.
  rewrite Uint64_short by exact H. reflexivity.
Qed.

Lemma Validate_returned_length (pow : ProofOfWork.t) (ok : bool) :
  ProofOfWork.Validate pow = Returned ok ->
  (8 <= length (ValidatorID (ProofOfWork.block pow)))%nat.
Proof.
  intro H.
  destruct (Nat.lt_ge_cases (length (ValidatorID (ProofOfWork.block pow))) 8)
    as [Hlt|Hge]; [|exact Hge].
  rewrite Validate_short in H by exact Hlt. discriminate H.
Qed.

(** C10: [Validate] needs 8 bytes of [ValidatorID]: on a shorter one,
    and so on the empty one of a block that has not been mined, decoding
    the nonce panics and no boolean is returned; on 8 bytes or more it
    returns a boolean. *)
Theorem pow_validate_needs_8_bytes :
  (forall pow : ProofOfWork.t,
      ProofOfWork.Validate pow = Panicked IndexOutOfRange <->
      (length (ValidatorID (ProofOfWork.block pow)) < 8)%nat) /\
  (forall pow : ProofOfWork.t,
      (exists ok, ProofOfWork.Validate pow = Returned ok) <->
      (8 <= length (ValidatorID (ProofOfWork.block pow)))%nat) /\
  (forall (data prev : list byte) (now : Z),
      ProofOfWork.Validate (NewProofOfWork (fresh_block data prev now)) =
      Panicked IndexOutOfRange).
Proof.
  split; [|split].
  - intro pow. split; [|apply Validate_short].
    intro H.
    destruct (Nat.lt_ge_cases (length (ValidatorID (ProofOfWork.block pow))) 8)
      as [Hlt|Hge]; [exact Hlt|].
    rewrite Validate_unfold in H by exact Hge. discriminate H.
  - intro pow. split.
    + intros [ok H]. apply (Validate_returned_length pow ok H).
    + intro Hge. eexists. apply Validate_unfold. exact Hge.
  - intros data prev now. apply Validate_short. cbn. lia.
Qed.

Lemma below_target_set_result (b : Block) (id h : list byte) (nonce : Z) :
  ProofOfWork.below_target (NewProofOfWork (set_result b id h)) nonce =
  ProofOfWork.below_target (NewProofOfWork b) nonce.
Proof. reflexivity. Qed.

Lemma MaxInt64_value : MaxInt64 = 2 ^ 63 - 1.
Proof. reflexivity. Qed.

(** A block mined at a nonce whose hash is below the target is accepted. *)
Lemma Validate_mined (b : Block) (n : Z) (h : list byte) :
  0 <= n <= MaxInt64 ->
  ProofOfWork.below_target (NewProofOfWork b) n = true ->
  ProofOfWork.Validate (NewProofOfWork (set_result b (IntToHex n) h)) =
  Returned true.
Proof.
  intros Hn Hb. rewrite MaxInt64_value in Hn.
  rewrite Validate_unfold
    by (cbn [ProofOfWork.block NewProofOfWork set_result ValidatorID];
        rewrite length_IntToHex; lia).
  cbn [ProofOfWork.block NewProofOfWork].
  rewrite recorded_nonce_IntToHex by lia.
  rewrite below_target_set_result, Hb. reflexivity.
Qed.



(** C5: [Run] tries the nonces 0, 1, 2, ... in turn, reads each digest as
    an unsigned big-endian integer and compares it with the target
    [2^(256-16)]; it returns the least nonce whose digest is strictly
    below the target, as its 8 big-endian bytes, with the digest of that
    nonce. *)
Theorem pow_run_least_nonce (b : Block) (n : Z) :
  0 <= n < MaxInt64 ->
  be_to_Z (sha256 (ProofOfWork.prepareData (NewProofOfWork b) n))
  < 2 ^ (256 - 16) ->
  (forall m, 0 <= m < n ->
             2 ^ (256 - 16) <=
             be_to_Z (sha256 (ProofOfWork.prepareData (NewProofOfWork b) m))) ->
  ProofOfWork.target (NewProofOfWork b) = 2 ^ (256 - 16) /\
  ProofOfWork.Run (NewProofOfWork b) =
  Some (Z_to_be 8 n, sha256 (ProofOfWork.prepareData (NewProofOfWork b) n)) /\
  length (Z_to_be 8 n) = 8%nat /\
  be_to_Z (Z_to_be 8 n) = n.
Proof.
  intros Hn Hhit Hmiss.
  split; [reflexivity|]. split; [|split].
  - rewrite <- IntToHex_big_endian. apply Run_first.
    + exact Hn.
    + apply below_target_lt. exact Hhit.
    + intros m Hm. specialize (Hmiss m Hm).
      destruct (ProofOfWork.below_target (NewProofOfWork b) m) eqn:E;
        [|reflexivity].
      apply below_target_lt in E. rewrite target_value in E. lia.
  - apply length_Z_to_be.
  - rewrite (be_to_Z_Z_to_be 8). change (256 ^ Z.of_nat 8) with (2 ^ 64).
    rewrite MaxInt64_value in Hn. apply Z.mod_small. lia.
Qed.

Lemma pow_run_least_nonce_witness :
  ProofOfWork.target (NewProofOfWork (genesis 1700119335)) = 2 ^ (256 - 16) /\
  ProofOfWork.Run (NewProofOfWork (genesis 1700119335)) =
  Some (Z_to_be 8 2,
        sha256 (ProofOfWork.prepareData (NewProofOfWork (genesis 1700119335)) 2)) /\
  length (Z_to_be 8 2) = 8%nat /\
  be_to_Z (Z_to_be 8 2) = 2.
Proof.
  apply (pow_run_least_nonce (genesis 1700119335) 2).
  - unfold MaxInt64. lia.
  - vm_compute. reflexivity.
  - intros m Hm.
    assert (Hcases : m = 0 \/ m = 1) by lia.
    destruct Hcases as [-> | ->]; vm_compute; discriminate.
Defined.

(** Mining the genesis block stamped 1700119335: the nonces 0 and 1 fail,
    the nonce 2 wins. *)
Example genesis_mined :
  exists h,
    ProofOfWork.Run (NewProofOfWork (genesis 1700119335)) = Some (IntToHex 2, h) /\
    hex h = "00000b303986f2b8c89d079992d1aae07a1dea7e08a88246fd1e2bb516018e92"%string.
Proof.
  eexists. split.
  - apply Run_of_Run_within with (fuel := 3%nat). vm_compute. reflexivity.
  - vm_compute. reflexivity.
Qed.

End ProofOfWorkProperties.

(** ** Proof of stake *)

Section ProofOfStakeProperties.

Import ProofOfStake.

Lemma validate_from_spec (pos : ProofOfStake.t) (vs : list Validator) :
  validate_from pos vs = true <->
  exists v, In v vs /\ be_to_Z (sha256 (prepareData pos v)) < threshold pos.
Proof.
  induction vs as [|v rest IH]; cbn [validate_from].
  - split; [discriminate|]. intros [v [[] _]].
  - rewrite Cmp_lt.
    destruct (be_to_Z (sha256 (prepareData pos v)) <? threshold pos) eqn:E.
    + apply Z.ltb_lt in E. split; [|reflexivity].
      intros _. exists v. split; [left; reflexivity | exact E].
    + apply Z.ltb_ge in E. rewrite IH. split.
      * intros [w [Hin Hw]]. exists w. split; [right; exact Hin | exact Hw].
      * intros [w [[<- | Hin] Hw]]; [lia|].
        exists w. split; assumption.
Qed.

Lemma totalStake_mock : totalStake createMockValidators = 6000.
Proof. reflexivity. Qed.

(** What [selectValidator] returns when the total stake is positive. *)
Lemma selectValidator_index (pos : ProofOfStake.t) (rnd : Z) :
  0 < totalStake (validators pos) ->
  exists i v,
    nth_error (validators pos) i = Some v /\
    walk (validators pos) (rnd mod totalStake (validators pos)) 0 = Some v /\
    selectValidator pos rnd = Returned v /\
    rnd mod totalStake (validators pos) <= cumulative (validators pos) (S i) /\
    forall k, (k < i)%nat ->
              cumulative (validators pos) (S k)
              < rnd mod totalStake (validators pos).
Proof.
  intro Hpos.
  pose proof (Z.mod_pos_bound rnd _ Hpos) as Hs.
  assert (Hne : validators pos <> []).
  { intro E. rewrite E in Hpos. cbn in Hpos. lia. }
  destruct (walk_index (validators pos) 0 (rnd mod totalStake (validators pos)) Hne)
    as [i [v [Hnth [Hwalk [Hreach Hbefore]]]]].
  { fold (totalStake (validators pos)). lia. }
  exists i, v.
  split; [exact Hnth|]. split; [exact Hwalk|]. split; [|split].
  - unfold selectValidator.
    destruct (totalStake (validators pos) =? 0) eqn:E.
    + apply Z.eqb_eq in E. lia.
    + rewrite Hwalk. reflexivity.
  - exact Hreach.
  - exact Hbefore.
Qed.

Lemma selectValidator_mock (b : Block) (rnd : Z) :
  exists v,
    In v createMockValidators /\
    selectValidator (NewProofOfStake b) rnd = Returned v.
Proof.
  destruct (selectValidator_index (NewProofOfStake b) rnd)
    as [i [v [Hnth [_ [Hsel _]]]]].
  - cbn [validators NewProofOfStake]. rewrite totalStake_mock. lia.
  - exists v. split; [|exact Hsel].
    apply (nth_error_In _ i). exact Hnth.
Qed.

(** C2: [Validate] returns true exactly when some validator of the
    registry -- the three fixed entries -- gives, with its own address
    and stake, a digest that read as an unsigned big-endian integer is
    strictly below [2^255].  The validator recorded in the block plays no
    part: the result is the same whatever [ValidatorID] and [Hash] hold,
    and there is a block produced by [Run] whose own digest is not below
    the threshold and which [Validate] accepts. *)
Theorem pos_validate_any_validator :
  length createMockValidators = 3%nat /\
  (forall b : Block,
      validators (NewProofOfStake b) = createMockValidators /\
      (Validate (NewProofOfStake b) = true <->
       exists v,
         In v createMockValidators /\
         be_to_Z (sha256 (PrevBlockHash b ++ Data b ++ Z_to_be 8 (Timestamp b) ++
                          Address v ++ Z_to_be 8 (Stake v)))
         < 2 ^ 255)) /\
  (forall (b : Block) (id h : list byte),
      Validate (NewProofOfStake (set_result b id h)) =
      Validate (NewProofOfStake b)) /\
  (exists (b : Block) (rnd : Z) (id h : list byte),
      Run (NewProofOfStake b) rnd = Returned (id, h) /\
      2 ^ 255 <= be_to_Z h /\
      Validate (NewProofOfStake (set_result b id h)) = true).
Proof.
  split; [reflexivity|]. split; [|split].
  - intro b. split; [reflexivity|].
    unfold Validate. rewrite validate_from_spec.
    cbn [validators threshold NewProofOfStake].
    split; intros [v [Hin Hv]]; exists v; (split; [exact Hin|]);
      rewrite pos_prepareData_concat in *; exact Hv.
  - intros b id h. reflexivity.
  - exists (genesis 1700000000), 5000.
    eexists. eexists. split; [reflexivity|].
    split; [vm_compute; discriminate | vm_compute; reflexivity].
Qed.

(** C3: [Run] returns the address of the selected validator and the
    digest of the block serialized with that validator's address and
    stake, whatever the draw.  The threshold takes no part in it: the
    result is the same for every threshold, and a returned digest can be
    at or above the threshold. *)
Theorem pos_run_unconditional :
  (forall (pos : ProofOfStake.t) (rnd : Z),
      Run pos rnd =
      match selectValidator pos rnd with
      | Returned v => Returned (Address v, sha256 (prepareData pos v))
      | Panicked p => Panicked p
      end) /\
  (forall (b : Block) (rnd : Z),
      exists v,
        In v createMockValidators /\
        selectValidator (NewProofOfStake b) rnd = Returned v /\
        Run (NewProofOfStake b) rnd =
        Returned (Address v,
                  sha256 (PrevBlockHash b ++ Data b ++ Z_to_be 8 (Timestamp b) ++
                          Address v ++ Z_to_be 8 (Stake v)))) /\
  (forall (pos : ProofOfStake.t) (thr rnd : Z),
      Run {| block := block pos; validators := validators pos; threshold := thr |} rnd
      = Run pos rnd) /\
  (exists (b : Block) (rnd : Z) (id h : list byte),
      Run (NewProofOfStake b) rnd = Returned (id, h) /\
      threshold (NewProofOfStake b) <= be_to_Z h).
Proof.
  split; [|split; [|split]].
  - intros pos rnd. unfold Run.
    destruct (selectValidator pos rnd); reflexivity.
  - intros b rnd.
    destruct (selectValidator_mock b rnd) as [v [Hin Hsel]].
    exists v. split; [exact Hin|]. split; [exact Hsel|].
    unfold Run. rewrite Hsel. cbn [bind].
    rewrite pos_prepareData_concat. reflexivity.
  - intros pos thr rnd. reflexivity.
  - exists (genesis 1700000006), 0.
    eexists. eexists. split; [reflexivity|].
    vm_compute. discriminate.
Qed.

(** In the [uint64] arithmetic of the code: on a registry that is not
    empty and whose total stake is positive, for a draw [s] in
    [[0, totalStake)], [selectValidator] returns the first validator in
    registry order at which the accumulator reaches [s]: the loop returns
    ([walk] gives a validator), so the final [validators[0]] is not
    reached, and a registry of one validator yields that validator for
    every draw. *)
Theorem select_first_reaching (pos : ProofOfStake.t) (s : Z) :
  validators pos <> [] ->
  0 < totalStake (validators pos) ->
  0 <= s < totalStake (validators pos) ->
  (exists i v,
      nth_error (validators pos) i = Some v /\
      s <= cumulative (validators pos) (S i) /\
      (forall k, (k < i)%nat -> cumulative (validators pos) (S k) < s) /\
      walk (validators pos) s 0 = Some v /\
      forall rnd, rnd mod totalStake (validators pos) = s ->
                  selectValidator pos rnd = Returned v) /\
  (forall v0, validators pos = [v0] ->
              forall rnd, selectValidator pos rnd = Returned v0).
Proof.
  intros Hne Hpos Hs. split.
  - destruct (selectValidator_index pos s Hpos)
      as [i [v [Hnth [Hwalk [Hsel [Hreach Hbefore]]]]]].
    rewrite Z.mod_small in * by exact Hs.
    exists i, v.
    split; [exact Hnth|]. split; [exact Hreach|]. split; [exact Hbefore|].
    split; [exact Hwalk|].
    intros rnd Hrnd.
    destruct (selectValidator_index pos rnd Hpos)
      as [i' [v' [_ [Hwalk' [Hsel' _]]]]].
    rewrite Hrnd in Hwalk'. rewrite Hwalk in Hwalk'.
    injection Hwalk' as <-. exact Hsel'.
  - intros v0 Hone rnd.
    destruct (selectValidator_index pos rnd Hpos)
      as [i [v [Hnth [_ [Hsel _]]]]].
    rewrite Hone in Hnth.
    destruct i as [|[|i]]; cbn in Hnth; try discriminate.
    injection Hnth as <-. exact Hsel.
Qed.

Lemma select_first_reaching_witness :
  (exists i v,
      nth_error createMockValidators i = Some v /\
      2500 <= cumulative createMockValidators (S i) /\
      (forall k, (k < i)%nat -> cumulative createMockValidators (S k) < 2500) /\
      walk createMockValidators 2500 0 = Some v /\
      forall rnd, rnd mod totalStake createMockValidators = 2500 ->
                  selectValidator (NewProofOfStake (genesis 1700000000)) rnd
                  = Returned v) /\
  (forall v0, createMockValidators = [v0] ->
              forall rnd,
                selectValidator (NewProofOfStake (genesis 1700000000)) rnd
                = Returned v0).
Proof.
  apply (select_first_reaching (NewProofOfStake (genesis 1700000000)) 2500).
  - discriminate.
  - vm_compute. reflexivity.
  - vm_compute. split; [discriminate | reflexivity].
Defined.

(** C6, as the code has it: on a registry that is not empty, whose
    stakes are non-negative and whose total stake is positive and below
    [2^64], so that the [uint64] sums of the code do not wrap, for a draw
    [s] in [[0, totalStake)], [selectValidator] returns the first
    validator in registry order whose cumulative stake meets or exceeds
    [s]: the loop returns ([walk] gives a validator), so the final
    [validators[0]] is not reached, and a registry of one validator
    yields that validator for every draw. *)
Theorem select_first_reaching_exact (pos : ProofOfStake.t) (s : Z) :
  validators pos <> [] ->
  Forall (fun v => 0 <= Stake v) (validators pos) ->
  exact_stake (validators pos) < 2 ^ 64 ->
  0 < exact_stake (validators pos) ->
  0 <= s < exact_stake (validators pos) ->
  totalStake (validators pos) = exact_stake (validators pos) /\
  (exists i v,
      nth_error (validators pos) i = Some v /\
      s <= exact_stake (firstn (S i) (validators pos)) /\
      (forall k, (k < i)%nat ->
                 exact_stake (firstn (S k) (validators pos)) < s) /\
      walk (validators pos) s 0 = Some v /\
      forall rnd, rnd mod exact_stake (validators pos) = s ->
                  selectValidator pos rnd = Returned v) /\
  (forall v0, validators pos = [v0] ->
              forall rnd, selectValidator pos rnd = Returned v0).
Proof.
  intros Hne Hnn Hsum Hpos Hs.
  pose proof (totalStake_exact _ Hnn Hsum) as Ht.
  assert (Htpos : 0 < totalStake (validators pos)) by lia.
  split; [exact Ht|]. split.
  - destruct (selectValidator_index pos s Htpos)
      as [i [v [Hnth [Hwalk [Hsel [Hreach Hbefore]]]]]].
    rewrite Z.mod_small in * by lia.
    exists i, v.
    split; [exact Hnth|].
    split; [rewrite <- (cumulative_exact _ (S i) Hnn Hsum); exact Hreach|].
    split.
    { intros k Hk. rewrite <- (cumulative_exact _ (S k) Hnn Hsum).
      apply Hbefore. exact Hk. }
    split; [exact Hwalk|].
    intros rnd Hrnd.
    destruct (selectValidator_index pos rnd Htpos)
      as [i' [v' [_ [Hwalk' [Hsel' _]]]]].
    rewrite Ht, Hrnd in Hwalk'. rewrite Hwalk in Hwalk'.
    injection Hwalk' as <-. exact Hsel'.
  - intros v0 Hone rnd.
    destruct (selectValidator_index pos rnd Htpos)
      as [i [v [Hnth [_ [Hsel _]]]]].
    rewrite Hone in Hnth.
    destruct i as [|[|i]]; cbn in Hnth; try discriminate.
    injection Hnth as <-. exact Hsel.
Qed.

Lemma select_first_reaching_exact_witness :
  totalStake createMockValidators = exact_stake createMockValidators /\
  (exists i v,
      nth_error createMockValidators i = Some v /\
      2500 <= exact_stake (firstn (S i) createMockValidators) /\
      (forall k, (k < i)%nat ->
                 exact_stake (firstn (S k) createMockValidators) < 2500) /\
      walk createMockValidators 2500 0 = Some v /\
      forall rnd, rnd mod exact_stake createMockValidators = 2500 ->
                  selectValidator (NewProofOfStake (genesis 1700000000)) rnd
                  = Returned v) /\
  (forall v0, createMockValidators = [v0] ->
              forall rnd,
                selectValidator (NewProofOfStake (genesis 1700000000)) rnd
                = Returned v0).
Proof.
  apply (select_first_reaching_exact (NewProofOfStake (genesis 1700000000)) 2500).
  - discriminate.
  - repeat constructor; cbn; lia.
  - vm_compute. reflexivity.
  - vm_compute. reflexivity.
  - vm_compute. split; [discriminate | reflexivity].
Defined.

(** C6 as stated fails when the sum of the stakes passes [2^64].  On the
    stakes 3, [2^64 - 1], 10 the total is positive and the draw 5 is
    below it, under the exact sums and under the sums of the code alike;
    the second validator is the first whose cumulative stake reaches 5,
    and [selectValidator] returns the third, its accumulator having
    wrapped to 2 at the second.  On the stakes [2^63], [2^63] the total
    is positive and [selectValidator] panics, the sum of the code being
    0. *)
Lemma select_wraps_on_overflow :
  (validators overflow_selection <> [] /\
   0 < exact_stake (validators overflow_selection) /\
   0 <= 5 < exact_stake (validators overflow_selection) /\
   0 <= 5 < totalStake (validators overflow_selection) /\
   exact_stake (firstn 1 (validators overflow_selection)) < 5 /\
   5 <= exact_stake (firstn 2 (validators overflow_selection)) /\
   nth_error (validators overflow_selection) 1
   = Some {| Address := bytes "second"; Stake := 2 ^ 64 - 1; Balance := 2 ^ 64 - 1 |} /\
   selectValidator overflow_selection 5
   = Returned {| Address := bytes "third"; Stake := 10; Balance := 10 |}) /\
  (validators overflow_total <> [] /\
   0 < exact_stake (validators overflow_total) /\
   forall rnd, selectValidator overflow_total rnd = Panicked DivideByZero).
Proof.
  split.
  - split; [discriminate|].
    split; [vm_compute; reflexivity|].
    split; [vm_compute; split; [discriminate | reflexivity]|].
    split; [vm_compute; split; [discriminate | reflexivity]|].
    split; [vm_compute; reflexivity|].
    split; [vm_compute; discriminate|].
    split; [reflexivity|].
    vm_compute. reflexivity.
  - split; [discriminate|].
    split; [vm_compute; reflexivity|].
    intro rnd. reflexivity.
Qed.

(** C7, as the code has it: on an empty registry, and on any registry
    whose total stake is zero, [selectValidator] panics with the run-time
    error "integer divide by zero" raised by the modulo; it returns no
    validator and raises no error of its own. *)
Theorem select_degenerate_divides_by_zero (pos : ProofOfStake.t) (rnd : Z) :
  validators pos = [] \/ totalStake (validators pos) = 0 ->
  selectValidator pos rnd = Panicked DivideByZero.
Proof.
  intros H.
  assert (Hz : totalStake (validators pos) = 0).
  { destruct H as [E | E]; [rewrite E; reflexivity | exact E]. }
  unfold selectValidator. rewrite Hz. reflexivity.
Qed.

Lemma select_degenerate_divides_by_zero_witness :
  selectValidator
    {| block := genesis 1700000000; validators := []; threshold := 2 ^ 255 |} 5000
  = Panicked DivideByZero.
Proof.
  apply select_degenerate_divides_by_zero.
  left. reflexivity.
Defined.

(** C7 as stated fails: on the empty registry and on a registry of one
    validator with stake zero the outcome is the divide-by-zero panic,
    not a "no eligible validators" condition. *)
Lemma select_no_explicit_failure :
  selectValidator
    {| block := genesis 1700000000; validators := []; threshold := 2 ^ 255 |} 0
  = Panicked DivideByZero /\
  selectValidator
    {| block := genesis 1700000000;
       validators := [ {| Address := bytes "validator1"; Stake := 0; Balance := 5000 |} ];
       threshold := 2 ^ 255 |} 0
  = Panicked DivideByZero /\
  Panicked DivideByZero
  <> (Panicked (Explicit "no eligible validators") : outcome Validator).
Proof.
  split; [reflexivity|]. split; [reflexivity|]. discriminate.
Qed.

End ProofOfStakeProperties.

(** ** The stored hash of a block *)

Section StoredHash.

Lemma Hash_set_result (b : Block) (id h : list byte) :
  Hash (set_result b id h) = h.
Proof. reflexivity. Qed.

Lemma NewBlock_POW (data prev : list byte) (now rnd : Z) (id h : list byte) :
  ProofOfWork.Run (NewProofOfWork (fresh_block data prev now)) = Some (id, h) ->
  NewBlock data prev POW now rnd =
  Some (Returned (set_result (fresh_block data prev now) id h)).
Proof.
  intro Hrun. unfold NewBlock.
  cbn [NewConsensus Consensus_Run].
  fold (fresh_block data prev now).
  rewrite Hrun. reflexivity.
Qed.

Lemma NewBlock_POS (data prev : list byte) (now rnd : Z) (id h : list byte) :
  ProofOfStake.Run (NewProofOfStake (fresh_block data prev now)) rnd
  = Returned (id, h) ->
  NewBlock data prev POS now rnd =
  Some (Returned (set_result (fresh_block data prev now) id h)).
Proof.
  intro Hrun. unfold NewBlock.
  cbn [NewConsensus Consensus_Run].
  fold (fresh_block data prev now).
  rewrite Hrun. reflexivity.
Qed.

(** C4, as the code has it: a block built by [NewBlock] carries a hash
    that is not empty and that equals the digest recomputed from its
    other fields and its recorded identifier -- under proof of work the
    nonce decoded from [ValidatorID], when the nonces below
    [math.MaxInt64] hold one whose hash is below the target; under proof
    of stake, always, the address and stake of the registry validator
    recorded in [ValidatorID].  [Validate] does not check this equality
    and does not read the stored hash: its result is the same whatever
    [Hash] holds; under proof of work it is the test that the digest
    recomputed from the decoded nonce is strictly below the target, and
    under proof of stake the test that some validator of the registry
    gives a digest strictly below the threshold. *)
Theorem stored_hash_of_new_block (data prev : list byte) (now rnd : Z) :
  ((exists n, 0 <= n < MaxInt64 /\
              be_to_Z (sha256 (ProofOfWork.prepareData
                                 (NewProofOfWork (fresh_block data prev now)) n))
              < 2 ^ (256 - 16)) ->
   exists b,
     NewBlock data prev POW now rnd = Some (Returned b) /\
     Hash b <> [] /\
     Hash b = sha256 (ProofOfWork.prepareData (NewProofOfWork b)
                                              (recorded_nonce b))) /\
  (exists b v,
      NewBlock data prev POS now rnd = Some (Returned b) /\
      Hash b <> [] /\
      In v createMockValidators /\
      ValidatorID b = Address v /\
      Hash b = sha256 (ProofOfStake.prepareData (NewProofOfStake b) v)) /\
  (forall (b : Block) (h : list byte),
      ProofOfWork.Validate (NewProofOfWork (set_result b (ValidatorID b) h)) =
      ProofOfWork.Validate (NewProofOfWork b) /\
      ProofOfStake.Validate (NewProofOfStake (set_result b (ValidatorID b) h)) =
      ProofOfStake.Validate (NewProofOfStake b)) /\
  (forall (b : Block) (ok : bool),
      ProofOfWork.Validate (NewProofOfWork b) = Returned ok ->
      ok = (be_to_Z (sha256 (ProofOfWork.prepareData (NewProofOfWork b)
                                                     (recorded_nonce b)))
            <? 2 ^ (256 - 16))) /\
  (forall b : Block,
      ProofOfStake.Validate (NewProofOfStake b) = true <->
      exists v,
        In v createMockValidators /\
        be_to_Z (sha256 (ProofOfStake.prepareData (NewProofOfStake b) v))
        < 2 ^ 255).
Proof.
  split; [|split; [|split; [|split]]].
  - intros [n [Hn Hlt]].
    apply (below_target_lt (NewProofOfWork (fresh_block data prev now))) in Hlt.
    destruct (least_below_target (NewProofOfWork (fresh_block data prev now))
                (S (Z.to_nat n)) n)
      as [n0 [Hn0 [Hb0 Hleast]]]; [lia | exact Hlt |].
    eexists. split.
    + apply NewBlock_POW. apply (Run_first _ n0); [lia | exact Hb0 | exact Hleast].
    + rewrite Hash_set_result. split; [apply sha256_nonempty|].
      rewrite recorded_nonce_IntToHex by (rewrite MaxInt64_value in Hn; lia).
      reflexivity.
  - destruct (selectValidator_mock (fresh_block data prev now) rnd)
      as [v [Hin Hsel]].
    eexists. exists v. split.
    + apply NewBlock_POS. unfold ProofOfStake.Run. rewrite Hsel. reflexivity.
    + rewrite Hash_set_result.
      split; [apply sha256_nonempty|].
      split; [exact Hin|]. split; reflexivity.
  - intros b h. split; reflexivity.
  - intros b ok Hok.
    pose proof (Validate_returned_length (NewProofOfWork b) ok Hok) as Hlen.
    cbn [ProofOfWork.block NewProofOfWork] in Hlen.
    rewrite Validate_unfold in Hok by exact Hlen.
    injection Hok as <-.
    unfold ProofOfWork.below_target. rewrite Cmp_lt. reflexivity.
  - intro b. unfold ProofOfStake.Validate.
    rewrite validate_from_spec. reflexivity.
Qed.

Lemma stored_hash_of_new_block_witness :
  (exists b,
      NewBlock (bytes "Genesis Block") [] POW 1700000000 5000 = Some (Returned b) /\
      Hash b <> [] /\
      Hash b = sha256 (ProofOfWork.prepareData (NewProofOfWork b)
                                               (recorded_nonce b))) /\
  (exists b v,
      NewBlock (bytes "Genesis Block") [] POS 1700000000 5000 = Some (Returned b) /\
      Hash b <> [] /\
      In v createMockValidators /\
      ValidatorID b = Address v /\
      Hash b = sha256 (ProofOfStake.prepareData (NewProofOfStake b) v)) /\
  (forall (b : Block) (h : list byte),
      ProofOfWork.Validate (NewProofOfWork (set_result b (ValidatorID b) h)) =
      ProofOfWork.Validate (NewProofOfWork b) /\
      ProofOfStake.Validate (NewProofOfStake (set_result b (ValidatorID b) h)) =
      ProofOfStake.Validate (NewProofOfStake b)) /\
  (forall (b : Block) (ok : bool),
      ProofOfWork.Validate (NewProofOfWork b) = Returned ok ->
      ok = (be_to_Z (sha256 (ProofOfWork.prepareData (NewProofOfWork b)
                                                     (recorded_nonce b)))
            <? 2 ^ (256 - 16))) /\
  (forall b : Block,
      ProofOfStake.Validate (NewProofOfStake b) = true <->
      exists v,
        In v createMockValidators /\
        be_to_Z (sha256 (ProofOfStake.prepareData (NewProofOfStake b) v))
        < 2 ^ 255).
Proof.
  split.
  - apply (proj1 (stored_hash_of_new_block
                    (bytes "Genesis Block") [] 1700000000 5000)).
    exists 131228. split.
    + unfold MaxInt64. lia.
    + vm_compute. reflexivity.
  - apply (proj2 (stored_hash_of_new_block
                    (bytes "Genesis Block") [] 1700000000 5000)).
Defined.

(** C4 as stated fails.  A block holding the nonce 2, which wins for the
    genesis block stamped 1700119335, and a stored hash that is not the
    recomputed digest is accepted by the proof-of-work [Validate]; and a
    block that the proof-of-stake [Run] produced, whose stored hash is
    the recomputed digest, is rejected by the proof-of-stake
    [Validate]. *)
Lemma stored_hash_not_checked :
  (Hash (set_result (genesis 1700119335) (IntToHex 2) (bytes "forged")) <> [] /\
   Hash (set_result (genesis 1700119335) (IntToHex 2) (bytes "forged")) <>
   sha256 (ProofOfWork.prepareData
             (NewProofOfWork
                (set_result (genesis 1700119335) (IntToHex 2) (bytes "forged")))
             (recorded_nonce
                (set_result (genesis 1700119335) (IntToHex 2) (bytes "forged")))) /\
   ProofOfWork.Validate
     (NewProofOfWork
        (set_result (genesis 1700119335) (IntToHex 2) (bytes "forged")))
   = Returned true) /\
  (exists (b : Block) (v : Validator),
      NewGenesisBlock POS 1700000006 0 = Some (Returned b) /\
      Hash b <> [] /\
      In v createMockValidators /\
      ValidatorID b = Address v /\
      Hash b = sha256 (ProofOfStake.prepareData (NewProofOfStake b) v) /\
      ProofOfStake.Validate (NewProofOfStake b) = false).
Proof.
  split.
  - split; [discriminate|]. split.
    + vm_compute. discriminate.
    + vm_compute. reflexivity.
  - eexists.
    exists {| Address := bytes "validator1"; Stake := 1000; Balance := 5000 |}.
    split; [vm_compute; reflexivity|].
    split; [discriminate|].
    split; [left; reflexivity|].
    split; [reflexivity|].
    split; vm_compute; reflexivity.
Qed.

End StoredHash.

(** * Further properties of the code *)

(** ** The integer codec *)

Section Codec.

Lemma byte_of_to_Z (b : byte) : byte_of_Z (byte_to_Z b) = b.
Proof.
  unfold byte_of_Z.
  rewrite Z.mod_small by apply byte_to_Z_range.
  unfold byte_to_Z. rewrite N2Z.id, Byte.of_to_N. reflexivity.
Qed.

Lemma be_to_Z_nonneg (bs : list byte) : 0 <= be_to_Z bs.
Proof.
  induction bs as [|b bs IH] using rev_ind.
  - cbn. lia.
  - rewrite be_to_Z_snoc. pose proof (byte_to_Z_range b). lia.
Qed.

Lemma Z_to_be_be_to_Z (bs : list byte) : Z_to_be (length bs) (be_to_Z bs) = bs.
Proof.
  induction bs as [|b bs IH] using rev_ind.
  - reflexivity.
  - rewrite length_app, Nat.add_comm. cbn [length Nat.add Z_to_be].
    rewrite be_to_Z_snoc.
    pose proof (byte_to_Z_range b) as Hb.
    replace ((be_to_Z bs * 256 + byte_to_Z b) / 256) with (be_to_Z bs).
    + rewrite IH. f_equal. f_equal.
      rewrite <- (byte_of_to_Z b) at 2. unfold byte_of_Z.
      rewrite Z.add_comm, Z.mod_add by lia. reflexivity.
    + rewrite Z.add_comm, Z.div_add by lia.
      rewrite Z.div_small by lia. reflexivity.
Qed.

Lemma IntToHex_decoded (bs : list byte) :
  length bs = 8%nat -> IntToHex (to_int64 (be_to_Z bs)) = bs.
Proof.
  intro H. rewrite IntToHex_to_int64, IntToHex_big_endian.
  rewrite <- H. apply Z_to_be_be_to_Z.
Qed.

(** Encoding an [int64] with [IntToHex] and decoding the 8 bytes as
    [Validate] does gives the integer back, negative ones included. *)
Theorem IntToHex_decode (num : Z) :
  - 2 ^ 63 <= num < 2 ^ 63 ->
  length (IntToHex num) = 8%nat /\
  (u <- BigEndian_Uint64 (IntToHex num) ;; Returned (to_int64 u)) = Returned num.
Proof.
  intro H. split; [apply length_IntToHex|].
  rewrite Uint64_IntToHex. cbn [bind].
  rewrite to_int64_wrap64 by exact H. reflexivity.
Qed.

Lemma IntToHex_decode_witness :
  length (IntToHex (-2)) = 8%nat /\
  (u <- BigEndian_Uint64 (IntToHex (-2)) ;; Returned (to_int64 u)) = Returned (-2).
Proof.
  apply (IntToHex_decode (-2)). lia.
Defined.

(** Decoding 8 bytes and encoding the integer again gives the bytes
    back: [IntToHex] reaches every 8-byte string. *)
Theorem IntToHex_encode_decoded (bs : list byte) :
  length bs = 8%nat ->
  exists u,
    BigEndian_Uint64 bs = Returned u /\
    - 2 ^ 63 <= to_int64 u < 2 ^ 63 /\
    IntToHex (to_int64 u) = bs.
Proof.
  intro H. exists (be_to_Z bs).
  split; [|split].
  - rewrite Uint64_long by lia.
    rewrite firstn_all2 by lia. reflexivity.
  - unfold to_int64.
    pose proof (Z.mod_pos_bound (be_to_Z bs + 2 ^ 63) (2 ^ 64) ltac:(lia)).
    lia.
  - apply IntToHex_decoded. exact H.
Qed.

Lemma IntToHex_encode_decoded_witness :
  exists u,
    BigEndian_Uint64 (bytes "validato") = Returned u /\
    - 2 ^ 63 <= to_int64 u < 2 ^ 63 /\
    IntToHex (to_int64 u) = bytes "validato".
Proof.
  apply (IntToHex_encode_decoded (bytes "validato")). reflexivity.
Defined.

Lemma IntToHex_inj (n1 n2 : Z) :
  - 2 ^ 63 <= n1 < 2 ^ 63 -> - 2 ^ 63 <= n2 < 2 ^ 63 ->
  IntToHex n1 = IntToHex n2 -> n1 = n2.
Proof.
  intros H1 H2 E.
  apply (f_equal be_to_Z) in E. rewrite !be_to_Z_IntToHex in E.
  rewrite <- (to_int64_wrap64 n1 H1), <- (to_int64_wrap64 n2 H2), E.
  reflexivity.
Qed.

(** Different nonces give different bytes to hash. *)
Theorem pow_prepareData_nonce_inj (pow : ProofOfWork.t) (n1 n2 : Z) :
  - 2 ^ 63 <= n1 < 2 ^ 63 -> - 2 ^ 63 <= n2 < 2 ^ 63 ->
  n1 <> n2 ->
  ProofOfWork.prepareData pow n1 <> ProofOfWork.prepareData pow n2.
Proof.
  intros H1 H2 Hne E. apply Hne.
  rewrite !pow_prepareData_concat in E.
  repeat apply app_inv_head in E.
  rewrite <- !IntToHex_big_endian in E.
  apply (IntToHex_inj n1 n2 H1 H2 E).
Qed.

Lemma pow_prepareData_nonce_inj_witness :
  ProofOfWork.prepareData (NewProofOfWork (genesis 1700000000)) (-1) <>
  ProofOfWork.prepareData (NewProofOfWork (genesis 1700000000)) 255.
Proof.
  apply (pow_prepareData_nonce_inj (NewProofOfWork (genesis 1700000000)) (-1) 255);
    lia.
Defined.

(** The serialization has no field boundaries: moving bytes between the
    end of the previous-block hash and the start of the payload changes
    neither the bytes hashed nor what either [Validate] returns. *)
Theorem prepareData_boundary (b1 b2 : Block) :
  PrevBlockHash b1 ++ Data b1 = PrevBlockHash b2 ++ Data b2 ->
  Timestamp b1 = Timestamp b2 ->
  ValidatorID b1 = ValidatorID b2 ->
  (forall nonce,
      ProofOfWork.prepareData (NewProofOfWork b1) nonce =
      ProofOfWork.prepareData (NewProofOfWork b2) nonce) /\
  (forall v,
      ProofOfStake.prepareData (NewProofOfStake b1) v =
      ProofOfStake.prepareData (NewProofOfStake b2) v) /\
  ProofOfWork.Validate (NewProofOfWork b1) =
  ProofOfWork.Validate (NewProofOfWork b2) /\
  ProofOfStake.Validate (NewProofOfStake b1) =
  ProofOfStake.Validate (NewProofOfStake b2).
Proof.
  intros Hpd Hts Hid.
  assert (Hw : forall nonce,
             ProofOfWork.prepareData (NewProofOfWork b1) nonce =
             ProofOfWork.prepareData (NewProofOfWork b2) nonce).
  { intro nonce. rewrite !pow_prepareData_concat.
    cbn [ProofOfWork.block NewProofOfWork].
    rewrite !app_assoc. rewrite Hpd, Hts. reflexivity. }
  assert (Hs : forall v,
             ProofOfStake.prepareData (NewProofOfStake b1) v =
             ProofOfStake.prepareData (NewProofOfStake b2) v).
  { intro v. rewrite !pos_prepareData_concat.
    cbn [ProofOfStake.block NewProofOfStake].
    rewrite !app_assoc. rewrite Hpd, Hts. reflexivity. }
  split; [exact Hw|]. split; [exact Hs|]. split.
  - unfold ProofOfWork.Validate.
    cbn [ProofOfWork.block ProofOfWork.target NewProofOfWork].
    rewrite Hid.
    destruct (BigEndian_Uint64 (ValidatorID b2)) as [u|p]; [|reflexivity].
    cbn [bind]. rewrite Hw. reflexivity.
  - unfold ProofOfStake.Validate.
    cbn [ProofOfStake.validators NewProofOfStake].
    induction createMockValidators as [|v rest IH]; [reflexivity|].
    cbn [ProofOfStake.validate_from]. rewrite Hs, IH. reflexivity.
Qed.

Lemma prepareData_boundary_witness :
  (forall nonce,
      ProofOfWork.prepareData
        (NewProofOfWork (fresh_block (bytes "pay me") (bytes "ab") 7)) nonce =
      ProofOfWork.prepareData
        (NewProofOfWork (fresh_block (bytes "bpay me") (bytes "a") 7)) nonce) /\
  (forall v,
      ProofOfStake.prepareData
        (NewProofOfStake (fresh_block (bytes "pay me") (bytes "ab") 7)) v =
      ProofOfStake.prepareData
        (NewProofOfStake (fresh_block (bytes "bpay me") (bytes "a") 7)) v) /\
  ProofOfWork.Validate
    (NewProofOfWork (fresh_block (bytes "pay me") (bytes "ab") 7)) =
  ProofOfWork.Validate
    (NewProofOfWork (fresh_block (bytes "bpay me") (bytes "a") 7)) /\
  ProofOfStake.Validate
    (NewProofOfStake (fresh_block (bytes "pay me") (bytes "ab") 7)) =
  ProofOfStake.Validate
    (NewProofOfStake (fresh_block (bytes "bpay me") (bytes "a") 7)).
Proof.
  apply (prepareData_boundary
           (fresh_block (bytes "pay me") (bytes "ab") 7)
           (fresh_block (bytes "bpay me") (bytes "a") 7));
    reflexivity.
Defined.

End Codec.

(** ** The outcome of mining *)

Section MiningOutcome.

Import ProofOfWork.

Lemma mine_invariant (pow : ProofOfWork.t) (fuel : nat) :
  forall nonce hash n' h',
    mine fuel pow nonce hash = Some (n', h') ->
    nonce <= MaxInt64 ->
    length hash = 32%nat ->
    nonce <= n' <= MaxInt64 /\ length h' = 32%nat.
Proof.
  induction fuel as [|fuel IH]; intros nonce hash n' h' Hm Hle Hlen.
  - destruct (Z_lt_le_dec nonce MaxInt64) as [Hlt|Hge].
    + apply Z.ltb_lt in Hlt. cbn [mine] in Hm. rewrite Hlt in Hm. discriminate.
    + rewrite mine_done in Hm by exact Hge.
      injection Hm as <- <-. split; [lia | exact Hlen].
  - destruct (Z_lt_le_dec nonce MaxInt64) as [Hlt|Hge].
    + destruct (below_target pow nonce) eqn:Hb.
      * rewrite mine_hit in Hm by assumption.
        injection Hm as <- <-. split; [lia | apply length_sha256].
      * rewrite mine_miss in Hm by assumption.
        apply IH in Hm; [|lia|apply length_sha256].
        split; [lia | apply Hm].
    + rewrite mine_done in Hm by exact Hge.
      injection Hm as <- <-. split; [lia | exact Hlen].
Qed.

Lemma mine_exhaust (pow : ProofOfWork.t) (fuel : nat) :
  forall nonce hash,
    nonce < MaxInt64 ->
    MaxInt64 - nonce <= Z.of_nat fuel ->
    (forall m, nonce <= m < MaxInt64 -> below_target pow m = false) ->
    mine fuel pow nonce hash =
    Some (MaxInt64, sha256 (prepareData pow (MaxInt64 - 1))).
Proof.
  induction fuel as [|fuel IH]; intros nonce hash Hlt Hfuel Hmiss; [lia|].
  rewrite mine_miss by (try apply Hmiss; lia).
  destruct (Z.eq_dec (nonce + 1) MaxInt64) as [E|Hne].
  - rewrite mine_done by lia. rewrite E.
    replace (MaxInt64 - 1) with nonce by lia. reflexivity.
  - apply IH; try lia. intros m Hm. apply Hmiss. lia.
Qed.

Lemma below_upto_dec (pow : ProofOfWork.t) (k : nat) :
  (exists m, 0 <= m < Z.of_nat k /\ below_target pow m = true) \/
  (forall m, 0 <= m < Z.of_nat k -> below_target pow m = false).
Proof.
  induction k as [|k IHk].
  - right. intros m Hm. lia.
  - destruct IHk as [[m [Hm Hbm]]|Hnone].
    + left. exists m. split; [lia|exact Hbm].
    + destruct (below_target pow (Z.of_nat k)) eqn:Hk.
      * left. exists (Z.of_nat k). split; [lia|exact Hk].
      * right. intros m Hm.
        destruct (Z.eq_dec m (Z.of_nat k)) as [->|Hmk]; [exact Hk|].
        apply Hnone. lia.
Qed.

Lemma Run_exhaust (pow : ProofOfWork.t) :
  (forall n, 0 <= n < MaxInt64 -> below_target pow n = false) ->
  Run pow = Some (IntToHex MaxInt64, sha256 (prepareData pow (MaxInt64 - 1))).
Proof.
  intro Hmiss. rewrite Run_unfold. unfold Run_within.
  rewrite (mine_exhaust pow (Z.to_nat MaxInt64) 0 (repeat x00 32)).
  - reflexivity.
  - rewrite MaxInt64_value. lia.
  - rewrite Z2Nat.id by (rewrite MaxInt64_value; lia). lia.
  - exact Hmiss.
Qed.

Lemma Run_within_shape (pow : ProofOfWork.t) (fuel : nat) (id h : list byte) :
  Run_within fuel pow = Some (id, h) ->
  exists nonce,
    id = IntToHex nonce /\ 0 <= nonce <= MaxInt64 /\ length h = 32%nat.
Proof.
  unfold Run_within. intro Hr.
  destruct (mine fuel pow 0 (repeat x00 32)) as [[nonce h0]|] eqn:Hm;
    [|discriminate].
  injection Hr as <- <-.
  apply mine_invariant in Hm;
    [|rewrite MaxInt64_value; lia | apply repeat_length].
  exists nonce. split; [reflexivity|]. split; [lia | apply Hm].
Qed.

(** Whatever the block, [Run] returns an 8-byte identifier that encodes
    a nonce between 0 and [math.MaxInt64] and a 32-byte hash, and
    [Validate] on the block completed with them returns a boolean: it
    does not panic. *)
Theorem pow_run_shape (b : Block) :
  exists nonce h,
    Run (NewProofOfWork b) = Some (IntToHex nonce, h) /\
    0 <= nonce <= MaxInt64 /\
    length (IntToHex nonce) = 8%nat /\
    length h = 32%nat /\
    recorded_nonce (set_result b (IntToHex nonce) h) = nonce /\
    exists ok,
      Validate (NewProofOfWork (set_result b (IntToHex nonce) h)) = Returned ok.
Proof.
  destruct (Run_total (NewProofOfWork b)) as [[id h] Hrun].
  pose proof Hrun as Hshape.
  rewrite Run_unfold in Hshape.
  apply Run_within_shape in Hshape.
  destruct Hshape as [nonce [-> [Hn Hlen]]].
  exists nonce, h.
  split; [exact Hrun|]. split; [lia|].
  split; [apply length_IntToHex|]. split; [exact Hlen|].
  split.
  - apply recorded_nonce_IntToHex. rewrite MaxInt64_value in Hn. lia.
  - eexists. apply Validate_unfold.
    cbn [ProofOfWork.block NewProofOfWork set_result ValidatorID].
    rewrite length_IntToHex. lia.
Qed.

(** When no nonce below [math.MaxInt64] has a hash below the target, the
    loop of [Run] ends on its bound: [Run] returns the encoding of
    [math.MaxInt64], a nonce it has not hashed, with the digest of the
    last nonce tried, [math.MaxInt64 - 1]; it signals nothing. *)
Theorem pow_run_exhausted (pow : ProofOfWork.t) :
  (forall n, 0 <= n < MaxInt64 ->
             target pow <= be_to_Z (sha256 (prepareData pow n))) ->
  Run pow = Some (IntToHex MaxInt64, sha256 (prepareData pow (MaxInt64 - 1))).
Proof.
  intro Hmiss. apply Run_exhaust.
  intros n Hn. specialize (Hmiss n Hn).
  destruct (below_target pow n) eqn:E; [|reflexivity].
  apply below_target_lt in E. lia.
Qed.

Lemma pow_run_exhausted_witness :
  Run {| block := genesis 1700000000; target := 0 |} =
  Some (IntToHex MaxInt64,
        sha256 (prepareData {| block := genesis 1700000000; target := 0 |}
                            (MaxInt64 - 1))).
Proof.
  apply (pow_run_exhausted {| block := genesis 1700000000; target := 0 |}).
  intros n Hn. cbn [target]. apply be_to_Z_nonneg.
Defined.

(** [Validate] accepts the block [Run] produced exactly when some nonce
    from 0 to [math.MaxInt64] has a hash below the target. *)
Theorem pow_validate_after_run (b : Block) :
  exists id h,
    Run (NewProofOfWork b) = Some (id, h) /\
    (Validate (NewProofOfWork (set_result b id h)) = Returned true <->
     exists n, 0 <= n <= MaxInt64 /\
               be_to_Z (sha256 (prepareData (NewProofOfWork b) n))
               < 2 ^ (256 - 16)).
Proof.
  destruct (below_upto_dec (NewProofOfWork b) (Z.to_nat MaxInt64))
    as [[m [Hm Hbm]]|Hnone].
  - rewrite Z2Nat.id in Hm by (rewrite MaxInt64_value; lia).
    destruct (least_below_target (NewProofOfWork b) (S (Z.to_nat m)) m)
      as [n0 [Hn0 [Hb0 Hleast]]]; [lia | exact Hbm |].
    exists (IntToHex n0), (sha256 (prepareData (NewProofOfWork b) n0)).
    split; [apply (Run_first _ n0); [lia | exact Hb0 | exact Hleast]|].
    split.
    + intros _. exists n0. split; [lia|].
      apply (below_target_lt (NewProofOfWork b)). exact Hb0.
    + intros _. apply Validate_mined; [lia | exact Hb0].
  - rewrite Z2Nat.id in Hnone by (rewrite MaxInt64_value; lia).
    exists (IntToHex MaxInt64),
           (sha256 (prepareData (NewProofOfWork b) (MaxInt64 - 1))).
    split; [apply Run_exhaust; exact Hnone|].
    rewrite Validate_unfold
      by (cbn [ProofOfWork.block NewProofOfWork set_result ValidatorID];
          rewrite length_IntToHex; lia).
    cbn [ProofOfWork.block NewProofOfWork].
    rewrite recorded_nonce_IntToHex by (rewrite MaxInt64_value; lia).
    rewrite below_target_set_result.
    split.
    + intro H. injection H as H. exists MaxInt64.
      split; [rewrite MaxInt64_value; lia|].
      apply (below_target_lt (NewProofOfWork b)). exact H.
    + intros [n [Hn Hlt]].
      apply (below_target_lt (NewProofOfWork b)) in Hlt.
      destruct (Z.eq_dec n MaxInt64) as [->|Hne].
      * rewrite Hlt. reflexivity.
      * rewrite Hnone in Hlt by lia. discriminate.
Qed.

(** [Validate] reads the first 8 bytes of [ValidatorID] and hashes
    exactly those bytes as the nonce field: on a block with at least 8
    bytes of identifier it returns whether the digest of previous hash,
    payload, timestamp, difficulty and these 8 bytes is below the
    target. *)
Theorem pow_validate_stored_bytes (b : Block) :
  (8 <= length (ValidatorID b))%nat ->
  Validate (NewProofOfWork b) =
  Returned (be_to_Z (sha256 (PrevBlockHash b ++ Data b ++
                             Z_to_be 8 (Timestamp b) ++ Z_to_be 8 16 ++
                             firstn 8 (ValidatorID b)))
            <? 2 ^ (256 - 16)).
Proof.
  intro Hlen.
  rewrite Validate_unfold by exact Hlen.
  unfold below_target. rewrite Cmp_lt, pow_prepareData_concat.
  cbn [ProofOfWork.block ProofOfWork.target NewProofOfWork].
  unfold recorded_nonce.
  rewrite <- (IntToHex_big_endian (to_int64 _)).
  rewrite IntToHex_decoded by (rewrite length_firstn; lia).
  reflexivity.
Qed.

Lemma pow_validate_stored_bytes_witness :
  Validate (NewProofOfWork
              (set_result (genesis 1700119335) (bytes "validator3") [])) =
  Returned
    (be_to_Z
       (sha256
          (PrevBlockHash (set_result (genesis 1700119335) (bytes "validator3") []) ++
           Data (set_result (genesis 1700119335) (bytes "validator3") []) ++
           Z_to_be 8 (Timestamp (set_result (genesis 1700119335) (bytes "validator3") [])) ++
           Z_to_be 8 16 ++
           firstn 8 (ValidatorID (set_result (genesis 1700119335) (bytes "validator3") []))))
     <? 2 ^ (256 - 16)).
Proof.
  apply (pow_validate_stored_bytes
           (set_result (genesis 1700119335) (bytes "validator3") [])).
  cbn. lia.
Defined.

(** Bytes of [ValidatorID] after the eighth are ignored by [Validate]. *)
Theorem pow_validate_ignores_trailing (b : Block) (id extra h h' : list byte) :
  length id = 8%nat ->
  Validate (NewProofOfWork (set_result b (id ++ extra) h)) =
  Validate (NewProofOfWork (set_result b id h')).
Proof.
  intro Hlen.
  rewrite !Validate_unfold
    by (cbn [ProofOfWork.block NewProofOfWork set_result ValidatorID];
        rewrite ?length_app; lia).
  cbn [ProofOfWork.block NewProofOfWork].
  rewrite !below_target_set_result.
  unfold recorded_nonce. cbn [set_result ValidatorID].
  rewrite firstn_app, Hlen, Nat.sub_diag, firstn_O, app_nil_r.
  reflexivity.
Qed.

Lemma pow_validate_ignores_trailing_witness :
  Validate (NewProofOfWork
              (set_result (genesis 1700119335) (IntToHex 2 ++ bytes "junk") [])) =
  Validate (NewProofOfWork
              (set_result (genesis 1700119335) (IntToHex 2) (bytes "h"))).
Proof.
  apply (pow_validate_ignores_trailing (genesis 1700119335) (IntToHex 2)).
  reflexivity.
Defined.

End MiningOutcome.

(** ** The outcome of validator selection *)

Section SelectionOutcome.

Import ProofOfStake.

Lemma totalStake_range (vs : list Validator) : 0 <= totalStake vs < 2 ^ 64.
Proof.
  unfold totalStake.
  destruct vs as [|v vs] using rev_ind.
  - cbn. lia.
  - rewrite fold_left_app. cbn [fold_left]. unfold wrap64.
    apply Z.mod_pos_bound. lia.
Qed.

(** [selectValidator] either panics on the modulo, when the total stake
    is zero, or returns a validator of the registry: the index panic of
    the final [validators[0]] does not occur. *)
Theorem select_outcome (pos : ProofOfStake.t) (rnd : Z) :
  (totalStake (validators pos) = 0 /\
   selectValidator pos rnd = Panicked DivideByZero) \/
  (0 < totalStake (validators pos) /\
   exists v, In v (validators pos) /\ selectValidator pos rnd = Returned v).
Proof.
  pose proof (totalStake_range (validators pos)) as Hr.
  destruct (Z.eq_dec (totalStake (validators pos)) 0) as [Hz|Hnz].
  - left. split; [exact Hz|].
    unfold selectValidator. rewrite Hz. reflexivity.
  - right. assert (Hpos : 0 < totalStake (validators pos)) by lia.
    split; [exact Hpos|].
    destruct (selectValidator_index pos rnd Hpos)
      as [i [v [Hnth [_ [Hsel _]]]]].
    exists v. split; [apply (nth_error_In _ i); exact Hnth | exact Hsel].
Qed.

(** With the fixed registry the draw [rnd mod 6000] selects validator1
    from 0 to 1000, validator2 from 1001 to 3000 and validator3 from
    3001 to 5999: the bands hold 1001, 2000 and 2999 draws, not 1000,
    2000 and 3000. *)
Theorem select_mock_bands (b : Block) (rnd : Z) :
  selectValidator (NewProofOfStake b) rnd =
  Returned
    (if rnd mod 6000 <=? 1000
     then {| Address := bytes "validator1"; Stake := 1000; Balance := 5000 |}
     else if rnd mod 6000 <=? 3000
     then {| Address := bytes "validator2"; Stake := 2000; Balance := 8000 |}
     else {| Address := bytes "validator3"; Stake := 3000; Balance := 10000 |}).
Proof.
  pose proof (Z.mod_pos_bound rnd 6000 ltac:(lia)) as Hs.
  unfold selectValidator.
  cbn [validators NewProofOfStake]. rewrite totalStake_mock.
  change (6000 =? 0) with false. cbv iota.
  unfold createMockValidators. cbn [walk Stake].
  change (wrap64 (0 + 1000)) with 1000.
  change (wrap64 (1000 + 2000)) with 3000.
  change (wrap64 (3000 + 3000)) with 6000.
  destruct (rnd mod 6000 <=? 1000); [reflexivity|].
  destruct (rnd mod 6000 <=? 3000); [reflexivity|].
  destruct (rnd mod 6000 <=? 6000) eqn:E; [reflexivity|].
  apply Z.leb_gt in E. lia.
Qed.

(** The draw 0 selects the first validator of the registry whatever its
    stake, a stake of zero included. *)
Theorem select_draw_zero (pos : ProofOfStake.t) (v : Validator)
    (rest : list Validator) (rnd : Z) :
  validators pos = v :: rest ->
  0 < totalStake (validators pos) ->
  rnd mod totalStake (validators pos) = 0 ->
  selectValidator pos rnd = Returned v.
Proof.
  intros Hvs Hpos Hdraw.
  unfold selectValidator.
  destruct (totalStake (validators pos) =? 0) eqn:E;
    [apply Z.eqb_eq in E; lia|].
  rewrite Hdraw, Hvs. cbn [walk].
  destruct (0 <=? wrap64 (0 + Stake v)) eqn:L; [reflexivity|].
  apply Z.leb_gt in L. unfold wrap64 in L.
  pose proof (Z.mod_pos_bound (0 + Stake v) (2 ^ 64) ltac:(lia)). lia.
Qed.

Lemma select_draw_zero_witness :
  selectValidator
    {| block := genesis 1700000000;
       validators :=
         [ {| Address := bytes "idle"; Stake := 0; Balance := 0 |};
           {| Address := bytes "staker"; Stake := 10; Balance := 10 |} ];
       threshold := 2 ^ 255 |} 20
  = Returned {| Address := bytes "idle"; Stake := 0; Balance := 0 |}.
Proof.
  apply (select_draw_zero _ _
           [ {| Address := bytes "staker"; Stake := 10; Balance := 10 |} ]).
  - reflexivity.
  - vm_compute. reflexivity.
  - vm_compute. reflexivity.
Defined.

(** When the stakes are non-negative and their exact sum is below
    [2^64], nothing wraps: [selectValidator] returns the first validator
    at which the exact running sum of the stakes reaches the draw [rnd]
    modulo the exact total. *)
Theorem select_exact_sums (pos : ProofOfStake.t) (rnd : Z) :
  Forall (fun v => 0 <= Stake v) (validators pos) ->
  exact_stake (validators pos) < 2 ^ 64 ->
  0 < exact_stake (validators pos) ->
  totalStake (validators pos) = exact_stake (validators pos) /\
  exists i v,
    nth_error (validators pos) i = Some v /\
    selectValidator pos rnd = Returned v /\
    rnd mod exact_stake (validators pos)
    <= exact_stake (firstn (S i) (validators pos)) /\
    forall k, (k < i)%nat ->
              exact_stake (firstn (S k) (validators pos))
              < rnd mod exact_stake (validators pos).
Proof.
  intros Hnn Hsum Hpos.
  pose proof (totalStake_exact _ Hnn Hsum) as Ht.
  split; [exact Ht|].
  destruct (selectValidator_index pos rnd) as
      [i [v [Hnth [_ [Hsel [Hreach Hbefore]]]]]]; [lia|].
  exists i, v.
  split; [exact Hnth|]. split; [exact Hsel|].
  rewrite Ht in *.
  split.
  - rewrite <- (cumulative_exact _ (S i) Hnn Hsum). exact Hreach.
  - intros k Hk. rewrite <- (cumulative_exact _ (S k) Hnn Hsum).
    apply Hbefore. exact Hk.
Qed.

Lemma select_exact_sums_witness :
  totalStake (validators (NewProofOfStake (genesis 1700000000))) =
  exact_stake (validators (NewProofOfStake (genesis 1700000000))) /\
  exists i v,
    nth_error (validators (NewProofOfStake (genesis 1700000000))) i = Some v /\
    selectValidator (NewProofOfStake (genesis 1700000000)) 123456789 = Returned v /\
    123456789 mod exact_stake (validators (NewProofOfStake (genesis 1700000000)))
    <= exact_stake (firstn (S i) (validators (NewProofOfStake (genesis 1700000000)))) /\
    forall k, (k < i)%nat ->
              exact_stake (firstn (S k) (validators (NewProofOfStake (genesis 1700000000))))
              < 123456789 mod exact_stake (validators (NewProofOfStake (genesis 1700000000))).
Proof.
  apply (select_exact_sums (NewProofOfStake (genesis 1700000000)) 123456789).
  - repeat constructor; cbn; lia.
  - vm_compute. reflexivity.
  - vm_compute. reflexivity.
Defined.

(** If the digest [Run] returns is below the threshold, [Validate]
    accepts the block completed with what [Run] returned. *)
Theorem pos_run_below_threshold (b : Block) (rnd : Z) (id h : list byte) :
  Run (NewProofOfStake b) rnd = Returned (id, h) ->
  be_to_Z h < 2 ^ 255 ->
  Validate (NewProofOfStake (set_result b id h)) = true.
Proof.
  intros Hrun Hlt.
  destruct (selectValidator_mock b rnd) as [v [Hin Hsel]].
  unfold Run in Hrun. rewrite Hsel in Hrun. cbn [bind] in Hrun.
  injection Hrun as <- <-.
  unfold Validate. apply validate_from_spec.
  exists v. split; [exact Hin | exact Hlt].
Qed.

Lemma pos_run_below_threshold_witness :
  Validate
    (NewProofOfStake
       (set_result (genesis 1700000000) (bytes "validator1")
          (sha256 (prepareData (NewProofOfStake (genesis 1700000000))
                     {| Address := bytes "validator1";
                        Stake := 1000; Balance := 5000 |})))) = true.
Proof.
  apply (pos_run_below_threshold (genesis 1700000000) 0).
  - vm_compute. reflexivity.
  - vm_compute. reflexivity.
Defined.

End SelectionOutcome.

(** ** Building the chain *)

Section Chain.

Lemma NewBlock_POW_total (data prev : list byte) (now rnd : Z) :
  exists nonce h,
    NewBlock data prev POW now rnd =
    Some (Returned (set_result (fresh_block data prev now) (IntToHex nonce) h)) /\
    length h = 32%nat.
Proof.
  destruct (Run_total (NewProofOfWork (fresh_block data prev now)))
    as [[id h] Hrun].
  pose proof Hrun as Hshape. rewrite Run_unfold in Hshape.
  apply Run_within_shape in Hshape.
  destruct Hshape as [nonce [-> [_ Hlen]]].
  exists nonce, h. split; [|exact Hlen].
  apply NewBlock_POW. exact Hrun.
Qed.

Lemma NewBlock_POS_total (data prev : list byte) (now rnd : Z) :
  exists v,
    In v createMockValidators /\
    NewBlock data prev POS now rnd =
    Some (Returned
            (set_result (fresh_block data prev now) (Address v)
               (sha256 (ProofOfStake.prepareData
                          (NewProofOfStake (fresh_block data prev now)) v)))).
Proof.
  destruct (selectValidator_mock (fresh_block data prev now) rnd)
    as [v [Hin Hsel]].
  exists v. split; [exact Hin|].
  apply NewBlock_POS. unfold ProofOfStake.Run. rewrite Hsel. reflexivity.
Qed.

Lemma mock_address_length (v : Validator) :
  In v createMockValidators -> length (Address v) = 10%nat.
Proof.
  intros [<- | [<- | [<- | []]]]; reflexivity.
Qed.

Lemma NewBlock_built (data prev : list byte) (ct : ConsensusType) (now rnd : Z) :
  exists b,
    NewBlock data prev ct now rnd = Some (Returned b) /\
    Data b = data /\
    PrevBlockHash b = prev /\
    Timestamp b = now /\
    length (Hash b) = 32%nat /\
    (8 <= length (ValidatorID b))%nat.
Proof.
  destruct ct.
  - destruct (NewBlock_POW_total data prev now rnd) as [nonce [h [Hnew Hlen]]].
    eexists. split; [exact Hnew|].
    cbn [set_result fresh_block Data PrevBlockHash Timestamp Hash ValidatorID].
    rewrite length_IntToHex. repeat split; try assumption; lia.
  - destruct (NewBlock_POS_total data prev now rnd) as [v [Hin Hnew]].
    eexists. split; [exact Hnew|].
    cbn [set_result fresh_block Data PrevBlockHash Timestamp Hash ValidatorID].
    rewrite length_sha256, (mock_address_length v Hin).
    repeat split; lia.
Qed.

(** [NewBlock] always returns a block: it carries the payload, the
    previous hash and the time it was given, a 32-byte hash and an
    identifier of at least 8 bytes (8 under proof of work, the 10-byte
    address of a registry validator under proof of stake), so that the
    proof-of-work [Validate] returns a boolean on every block [NewBlock]
    built, under either consensus. *)
Theorem NewBlock_returns (data prev : list byte) (ct : ConsensusType)
    (now rnd : Z) :
  exists b,
    NewBlock data prev ct now rnd = Some (Returned b) /\
    Data b = data /\
    PrevBlockHash b = prev /\
    Timestamp b = now /\
    length (Hash b) = 32%nat /\
    (8 <= length (ValidatorID b))%nat /\
    match ct with
    | POW => length (ValidatorID b) = 8%nat
    | POS => exists v, In v createMockValidators /\ ValidatorID b = Address v
    end /\
    exists ok, ProofOfWork.Validate (NewProofOfWork b) = Returned ok.
Proof.
  destruct ct.
  - destruct (NewBlock_POW_total data prev now rnd) as [nonce [h [Hnew Hlen]]].
    eexists. split; [exact Hnew|].
    cbn [set_result fresh_block Data PrevBlockHash Timestamp Hash ValidatorID].
    rewrite length_IntToHex.
    split; [reflexivity|]. split; [reflexivity|]. split; [reflexivity|].
    split; [exact Hlen|]. split; [lia|]. split; [reflexivity|].
    eexists. apply Validate_unfold.
    cbn [ProofOfWork.block NewProofOfWork set_result ValidatorID].
    rewrite length_IntToHex. lia.
  - destruct (NewBlock_POS_total data prev now rnd) as [v [Hin Hnew]].
    eexists. split; [exact Hnew|].
    cbn [set_result fresh_block Data PrevBlockHash Timestamp Hash ValidatorID].
    rewrite length_sha256, (mock_address_length v Hin).
    split; [reflexivity|]. split; [reflexivity|]. split; [reflexivity|].
    split; [reflexivity|]. split; [lia|].
    split; [exists v; split; [exact Hin | reflexivity]|].
    eexists. apply Validate_unfold.
    cbn [ProofOfWork.block NewProofOfWork set_result ValidatorID].
    rewrite (mock_address_length v Hin). lia.
Qed.

Lemma index_last (A : Type) (l : list A) (x : A) :
  index (l ++ [x]) (Z.of_nat (length (l ++ [x])) - 1) = Returned x.
Proof.
  unfold index. rewrite length_app. cbn [length].
  destruct ((Z.of_nat (length l + 1) - 1 <? 0)
            || (Z.of_nat (length l + 1) <=? Z.of_nat (length l + 1) - 1)) eqn:E.
  - apply orb_true_iff in E. destruct E as [E|E].
    + apply Z.ltb_lt in E. lia.
    + apply Z.leb_le in E. lia.
  - replace (Z.to_nat (Z.of_nat (length l + 1) - 1)) with (length l) by lia.
    rewrite nth_error_app2 by lia. rewrite Nat.sub_diag. reflexivity.
Qed.

Lemma AddBlock_snoc (earlier : list Block) (prevBlock : Block)
    (ct : ConsensusType) (data : list byte) (now rnd : Z) :
  exists newBlock,
    AddBlock {| blocks := earlier ++ [prevBlock]; consensusType := ct |}
             data now rnd =
    Some (Returned {| blocks := (earlier ++ [prevBlock]) ++ [newBlock];
                      consensusType := ct |}) /\
    NewBlock data (Hash prevBlock) ct now rnd = Some (Returned newBlock).
Proof.
  destruct (NewBlock_built data (Hash prevBlock) ct now rnd) as [nb [Hnew _]].
  exists nb. split; [|exact Hnew].
  unfold AddBlock. cbn [blocks consensusType].
  rewrite index_last, Hnew. reflexivity.
Qed.

(** On a chain that is not empty [AddBlock] always succeeds: it appends
    one block, built from the payload and the time given, whose previous
    hash is the hash of the block that was last, and changes neither the
    earlier blocks nor the consensus type. *)
Theorem AddBlock_appends (earlier : list Block) (prevBlock : Block)
    (ct : ConsensusType) (data : list byte) (now rnd : Z) :
  exists newBlock,
    AddBlock {| blocks := earlier ++ [prevBlock]; consensusType := ct |}
             data now rnd =
    Some (Returned {| blocks := earlier ++ [prevBlock; newBlock];
                      consensusType := ct |}) /\
    PrevBlockHash newBlock = Hash prevBlock /\
    Data newBlock = data /\
    Timestamp newBlock = now /\
    length (Hash newBlock) = 32%nat.
Proof.
  destruct (AddBlock_snoc earlier prevBlock ct data now rnd)
    as [nb [Hadd Hnew]].
  destruct (NewBlock_built data (Hash prevBlock) ct now rnd)
    as [nb' [Hnew' [Hdata [Hprev [Hts [Hlen _]]]]]].
  rewrite Hnew in Hnew'. injection Hnew' as <-.
  exists nb. rewrite <- app_assoc in Hadd. cbn [app] in Hadd.
  repeat split; assumption.
Qed.

(** On a chain without blocks [AddBlock] panics on the index of the
    last block, before any block is built. *)
Theorem AddBlock_empty (ct : ConsensusType) (data : list byte) (now rnd : Z) :
  AddBlock {| blocks := []; consensusType := ct |} data now rnd =
  Some (Panicked IndexOutOfRange).
Proof. reflexivity. Qed.

Lemma chain_linked_snoc (l : list Block) :
  forall p n,
    chain_linked (l ++ [p]) ->
    PrevBlockHash n = Hash p ->
    chain_linked ((l ++ [p]) ++ [n]).
Proof.
  induction l as [|a l IH]; intros p n Hl Hn.
  - cbn. split; [exact Hn | exact I].
  - destruct l as [|a' l'].
    + cbn in *. destruct Hl as [Hp _].
      split; [exact Hp|]. split; [exact Hn | exact I].
    + change (chain_linked (a :: (a' :: l' ++ [p]) ++ [n])).
      change (chain_linked (a :: a' :: l' ++ [p])) in Hl.
      cbn [chain_linked app] in Hl |- *.
      destruct Hl as [Ha Hrest].
      split; [exact Ha|].
      apply (IH p n); [exact Hrest | exact Hn].
Qed.

Lemma NewBlockchain_returns (ct : ConsensusType) (now rnd : Z) :
  exists g,
    NewBlockchain ct now rnd =
    Some (Returned {| blocks := [g]; consensusType := ct |}) /\
    NewBlock (bytes "Genesis Block") [] ct now rnd = Some (Returned g).
Proof.
  destruct (NewBlock_built (bytes "Genesis Block") [] ct now rnd)
    as [g [Hnew _]].
  exists g. split; [|exact Hnew].
  unfold NewBlockchain, NewGenesisBlock. rewrite Hnew. reflexivity.
Qed.

(** The shape every block of [NewBlock] has. *)
Lemma NewBlock_shape (data prev : list byte) (ct : ConsensusType)
    (now rnd : Z) (b : Block) :
  NewBlock data prev ct now rnd = Some (Returned b) ->
  Data b = data /\ PrevBlockHash b = prev /\ Timestamp b = now /\
  length (Hash b) = 32%nat /\ (8 <= length (ValidatorID b))%nat.
Proof.
  intro H.
  destruct (NewBlock_built data prev ct now rnd) as [b' [H' Hshape]].
  rewrite H in H'. injection H' as <-. exact Hshape.
Qed.

(** Every chain built by [NewBlockchain], [AddBlock] and
    [SwitchConsensus] starts with the genesis block, whose previous hash
    is empty and whose payload is "Genesis Block"; each later block names
    the hash of the block before it; and every block has a 32-byte hash
    and an identifier of at least 8 bytes. *)
Theorem built_chain_invariant (bc : Blockchain) :
  built bc ->
  (exists g rest,
      blocks bc = g :: rest /\
      PrevBlockHash g = [] /\
      Data g = bytes "Genesis Block") /\
  chain_linked (blocks bc) /\
  Forall (fun b => length (Hash b) = 32%nat /\
                   (8 <= length (ValidatorID b))%nat) (blocks bc).
Proof.
  intro Hb. induction Hb as [ct now rnd bc Hnew | bc bc' data now rnd Hb IH Hadd
                            | bc newType Hb IH].
  - destruct (NewBlockchain_returns ct now rnd) as [g [Hbc Hg]].
    rewrite Hnew in Hbc. injection Hbc as ->.
    apply NewBlock_shape in Hg.
    destruct Hg as [Hdata [Hprev [_ [Hlen Hid]]]].
    cbn [blocks]. split; [|split].
    + exists g, []. repeat split; assumption.
    + exact I.
    + constructor; [split; assumption | constructor].
  - destruct IH as [[g [rest [Hbl [Hgp Hgd]]]] [Hlinked Hall]].
    destruct bc as [bs ct]. cbn [blocks] in *.
    assert (Hsnoc : exists earlier prevBlock, bs = earlier ++ [prevBlock]).
    { destruct (exists_last (l := bs)) as [earlier [p Hp]];
        [rewrite Hbl; discriminate|].
      exists earlier, p. exact Hp. }
    destruct Hsnoc as [earlier [prevBlock Hbs]].
    destruct (AddBlock_snoc earlier prevBlock ct data now rnd)
      as [nb [Hadd' Hnb]].
    rewrite <- Hbs in Hadd'. rewrite Hadd in Hadd'. injection Hadd' as ->.
    apply NewBlock_shape in Hnb.
    destruct Hnb as [_ [Hprev [_ [Hlen Hid]]]].
    cbn [blocks]. split; [|split].
    + exists g, (rest ++ [nb]). rewrite Hbl. repeat split; assumption.
    + rewrite Hbs in *. apply chain_linked_snoc; assumption.
    + apply Forall_app. split; [exact Hall|].
      constructor; [split; assumption | constructor].
  - exact IH.
Qed.

Lemma NewBlockchain_of_NewBlock (ct : ConsensusType) (now rnd : Z) (g : Block) :
  NewBlock (bytes "Genesis Block") [] ct now rnd = Some (Returned g) ->
  NewBlockchain ct now rnd =
  Some (Returned {| blocks := [g]; consensusType := ct |}).
Proof.
  intro H. unfold NewBlockchain, NewGenesisBlock. rewrite H. reflexivity.
Qed.

Lemma AddBlock_of_NewBlock (earlier : list Block) (prevBlock : Block)
    (ct : ConsensusType) (data : list byte) (now rnd : Z) (nb : Block) :
  NewBlock data (Hash prevBlock) ct now rnd = Some (Returned nb) ->
  AddBlock {| blocks := earlier ++ [prevBlock]; consensusType := ct |}
           data now rnd =
  Some (Returned {| blocks := (earlier ++ [prevBlock]) ++ [nb];
                    consensusType := ct |}).
Proof.
  intro H. unfold AddBlock. cbn [blocks consensusType].
  rewrite index_last, H. reflexivity.
Qed.

Lemma built_chain_invariant_witness :
  (exists g rest,
      blocks example_chain = g :: rest /\
      PrevBlockHash g = [] /\
      Data g = bytes "Genesis Block") /\
  chain_linked (blocks example_chain) /\
  Forall (fun b => length (Hash b) = 32%nat /\
                   (8 <= length (ValidatorID b))%nat) (blocks example_chain).
Proof.
  apply (built_chain_invariant example_chain).
  apply (built_add
           (SwitchConsensus
              {| blocks := [example_block0; example_block1];
                 consensusType := POS |} POW)
           example_chain (bytes "Send 50 BTC to John") 1700043653 0).
  - apply built_switch.
    apply (built_add
             (SwitchConsensus
                {| blocks := [example_block0]; consensusType := POW |} POS)
             _ (bytes "Send 30 BTC to Jane") 1700030100 5000).
    + apply built_switch.
      apply (built_new POW 1700030065 0).
      apply NewBlockchain_of_NewBlock.
      apply NewBlock_POW.
      apply Run_of_Run_within with (fuel := 2%nat).
      vm_compute. reflexivity.
    + apply (AddBlock_of_NewBlock [] example_block0 POS).
      apply NewBlock_POS. vm_compute. reflexivity.
  - apply (AddBlock_of_NewBlock [example_block0] example_block1 POW).
    apply NewBlock_POW.
    apply Run_of_Run_within with (fuel := 3%nat).
    vm_compute. reflexivity.
Defined.

(** [main] validates its three blocks with the consensus type the chain
    has after the switch, proof of stake: the validity it reports for
    the genesis block and the first block, both mined under proof of
    work (8-byte identifiers), is the proof-of-stake test, in which their
    nonce plays no part.  [main] always completes, with three linked
    blocks. *)
Theorem main_validates_with_pos (now0 now1 now2 rnd : Z) :
  exists b0 b1 b2,
    main now0 now1 now2 rnd =
    Some (Returned
            [ (b0, ProofOfStake.Validate (NewProofOfStake b0));
              (b1, ProofOfStake.Validate (NewProofOfStake b1));
              (b2, ProofOfStake.Validate (NewProofOfStake b2)) ]) /\
    NewGenesisBlock POW now0 rnd = Some (Returned b0) /\
    NewBlock (bytes "Send 50 BTC to John") (Hash b0) POW now1 rnd
    = Some (Returned b1) /\
    NewBlock (bytes "Send 30 BTC to Jane") (Hash b1) POS now2 rnd
    = Some (Returned b2) /\
    length (ValidatorID b0) = 8%nat /\
    length (ValidatorID b1) = 8%nat.
Proof.
  destruct (NewBlockchain_returns POW now0 rnd) as [b0 [Hbc0 Hb0]].
  destruct (AddBlock_snoc [] b0 POW (bytes "Send 50 BTC to John") now1 rnd)
    as [b1 [Hadd1 Hb1]].
  destruct (AddBlock_snoc [b0] b1 POS (bytes "Send 30 BTC to Jane") now2 rnd)
    as [b2 [Hadd2 Hb2]].
  exists b0, b1, b2.
  split; [|split; [exact Hb0 | split; [exact Hb1 | split; [exact Hb2|]]]].
  - unfold main. rewrite Hbc0.
    cbn [app] in Hadd1. rewrite Hadd1.
    unfold SwitchConsensus. cbn [blocks consensusType app].
    cbn [app] in Hadd2. rewrite Hadd2.
    reflexivity.
  - destruct (NewBlock_POW_total (bytes "Genesis Block") [] now0 rnd)
      as [n0 [h0 [E0 _]]].
    destruct (NewBlock_POW_total (bytes "Send 50 BTC to John") (Hash b0) now1 rnd)
      as [n1 [h1 [E1 _]]].
    unfold NewGenesisBlock in Hb0.
    rewrite Hb0 in E0. injection E0 as ->.
    rewrite Hb1 in E1. injection E1 as ->.
    cbn [set_result ValidatorID]. rewrite !length_IntToHex.
    split; reflexivity.
Qed.

End Chain.
